(** * Link-Finder: the Articulate course URL scanner

    A shallow embedding of [articulate_scanner/scanner.py] (class
    [ArticulateScanner]), of the command line in [articulate_scanner/cli.py]
    and of the stand-alone scripts [find_link.py] and
    [articulate_course_url_scanner2.py], which carry the same functions at
    module level.

    Conventions of the embedding.
    - A Python [str] is a [string]; its characters are read as the code
      points 0..255.
    - A Python dict with a fixed set of keys is a record; the attribute dict
      of a tag is a [gmap string string]; the visited set and the per-course
      candidate set are [gset string]; the result list is a [list].
    - The browser, the HTML parser and the HTTP client are collaborators of
      the program.  The parsed page is a value of type [Soup]; the browser is
      an oracle threaded through the traversal; the outcome of an HTTP HEAD
      request is a value of type [HeadOutcome].
    - Console output ([verbose]) and the settle delays are left out: they
      change neither the scanner nor what a call returns. *)

From Stdlib Require Import ZArith Ascii String.
From stdpp Require Import base decidable option list sets gmap strings pretty.

Local Open Scope string_scope.
Local Open Scope list_scope.
Local Open Scope Z_scope.

(** ** Python string operations used by the scanner *)

Module Py.

(** [s.startswith(p)] *)
Fixpoint startswith (s p : string) {struct p} : bool :=
  match p with
  | EmptyString => true
  | String a p' =>
      match s with
      | EmptyString => false
      | String b s' => bool_decide (a = b) && startswith s' p'
      end
  end.

(** [p in s] for strings: [p] occurs as a contiguous run of [s]. *)
Fixpoint contains (s p : string) : bool :=
  startswith s p ||
  match s with
  | EmptyString => false
  | String _ s' => contains s' p
  end.

(** [s.split(c)[0]] with a one-character separator: the part of [s] before
    the first [c], or all of [s] when [c] does not occur. *)
Fixpoint before_first (c : ascii) (s : string) : string :=
  match s with
  | EmptyString => EmptyString
  | String a s' => if bool_decide (a = c) then EmptyString
                   else String a (before_first c s')
  end.

(** [s.split(c, 1)[1]]: the part of [s] after the first [c] (empty when [c]
    does not occur; the callers test for the separator first). *)
Fixpoint after_first (c : ascii) (s : string) : string :=
  match s with
  | EmptyString => EmptyString
  | String a s' => if bool_decide (a = c) then s' else after_first c s'
  end.

(** [c in s] for a single character. *)
Fixpoint has_char (c : ascii) (s : string) : bool :=
  match s with
  | EmptyString => false
  | String a s' => bool_decide (a = c) || has_char c s'
  end.

(** [str.isspace] on the code points 0..255: TAB, LF, VT, FF, CR, the
    separators FS, GS, RS, US, the space, NEL and the no-break space. *)
Definition isspace (c : ascii) : bool :=
  let n := N_of_ascii c in
  ((9 <=? n) && (n <=? 13) || (28 <=? n) && (n <=? 32)
   || (n =? 133) || (n =? 160))%N.

(** [s.lstrip()] *)
Fixpoint lstrip (s : string) : string :=
  match s with
  | EmptyString => EmptyString
  | String a s' => if isspace a then lstrip s' else s
  end.

(** [s.rstrip()] *)
Fixpoint rstrip (s : string) : string :=
  match s with
  | EmptyString => EmptyString
  | String a s' =>
      match rstrip s' with
      | EmptyString => if isspace a then EmptyString else String a EmptyString
      | r => String a r
      end
  end.

(** [s.strip()] *)
Definition strip (s : string) : string := rstrip (lstrip s).

(** [s.replace(old, '')]: the scan goes from left to right; where [old]
    starts at the current position its characters are dropped and the scan
    resumes behind them.  [skip] counts the characters of a match that are
    still to be dropped.  For an empty [old] nothing is removed. *)
Fixpoint remove_all_from (skip : nat) (old s : string) : string :=
  match s with
  | EmptyString => EmptyString
  | String a s' =>
      match skip with
      | S k => remove_all_from k old s'
      | O =>
          if startswith s old then
            match String.length old with
            | O => String a (remove_all_from O old s')
            | S k => remove_all_from k old s'
            end
          else String a (remove_all_from O old s')
      end
  end.

Definition remove_all (old s : string) : string := remove_all_from O old s.

(** [''.join(l)] *)
Definition join (l : list string) : string :=
  foldr String.append EmptyString l.

(** [s.lower()] on the ASCII letters. *)
Definition lower_char (c : ascii) : ascii :=
  let n := N_of_ascii c in
  if ((65 <=? n) && (n <=? 90))%N then ascii_of_N (n + 32) else c.

Fixpoint lower (s : string) : string :=
  match s with
  | EmptyString => EmptyString
  | String a s' => String (lower_char a) (lower s')
  end.

End Py.

(** ** The parsed page

    [BeautifulSoup(page_source, 'html.parser')] is a tree of tags; the
    scanner reads it only through [find], [find_all], [get], [[...]] and
    [get_text].  A [Soup] lists the tags of the page in document order, each
    with what those calls read: its name, its single-valued attributes, its
    [class] attribute (which the parser keeps as a list of tokens) and the
    text nodes below it, in document order. *)

Record Tag := {
  tag_name : string;
  tag_attrs : gmap string string;
  tag_class : list string;
  tag_strings : list string
}.

Abbreviation Soup := (list Tag).

(** [tag.get_text(strip=True)]: every text node is stripped, the empty ones
    are dropped and the rest are joined with the empty separator. *)
Definition get_text_strip (t : Tag) : string :=
  Py.join (filter (λ s, s ≠ "") (Py.strip <$> tag_strings t)).

(** [tag.get(key, '')] *)
Definition tag_get (t : Tag) (key : string) : string :=
  default "" (tag_attrs t !! key).

(** [soup.find_all(name, {key: value})] *)
Definition find_all_attr (soup : Soup) (name key value : string) : list Tag :=
  filter (λ t, tag_name t = name ∧ tag_attrs t !! key = Some value) soup.

(** [soup.find_all(name, key=True)]: the tags that carry the attribute. *)
Definition find_all_with (soup : Soup) (name key : string) : list Tag :=
  filter (λ t, tag_name t = name ∧ is_Some (tag_attrs t !! key)) soup.

(** [soup.find(name, class_=cls)]: the first tag with one of its class
    tokens equal to [cls]. *)
Definition find_class (soup : Soup) (name cls : string) : option Tag :=
  head (filter (λ t, tag_name t = name ∧ cls ∈ tag_class t) soup).

(** ** The records the scanner builds *)

(** An entry of [lesson_links]. *)
Record LessonLink := {
  lesson_url : string;   (* key 'url' *)
  title : string;
  lesson_id : string
}.

(** An entry of [urls_found] and of [all_results]. *)
Record DiscoveredLink := {
  url : string;
  link_text : string;
  lesson : string;
  display : string
}.

Global Instance LessonLink_eq_dec : EqDecision LessonLink.
Proof. solve_decision. Defined.

Global Instance DiscoveredLink_eq_dec : EqDecision DiscoveredLink.
Proof. solve_decision. Defined.

(** ** The markup extractor *)

Definition LF : ascii := ascii_of_N 10.

(** [get_lesson_title] *)
Definition get_lesson_title (soup : Soup) : string :=
  match find_class soup "h1" "lesson-header__title" with
  | Some title_element => get_text_strip title_element
  | None => "Unknown Lesson"
  end.

(** The body of the loop of [get_lesson_links] for one navigation anchor:
    the entry it appends, if any. *)
Definition lesson_link_of (base_url : string) (nav_link : Tag)
  : option LessonLink :=
  let href := tag_get nav_link "href" in
  if bool_decide (href ≠ "") && Py.startswith href "#/lessons/" then
    let lesson_id := Py.remove_all "#/lessons/" href in
    let full_url := base_url +:+ "#/lessons/" +:+ lesson_id in
    let text := get_text_strip nav_link in
    let lesson_title :=
      if Py.has_char LF text then Py.strip (Py.before_first LF text)
      else text in
    Some {| lesson_url := full_url; title := lesson_title;
            lesson_id := lesson_id |}
  else None.

(** [get_lesson_links] *)
Definition get_lesson_links (soup : Soup) (base_url : string)
  : list LessonLink :=
  let nav_links := find_all_attr soup "a" "data-link" "lesson-link-item" in
  omap (lesson_link_of base_url) nav_links.

(** The display string [f"{href} is in '{lesson_title}'"]. *)
Definition result_text (href lesson_title : string) : string :=
  href +:+ " is in '" +:+ lesson_title +:+ "'".

(** The body of the loop of [extract_urls_from_page] for one anchor.  The
    anchors come from [find_all('a', href=True)], so [link_tag['href']] is
    present. *)
Definition url_entry_of (lesson_title : string) (link_tag : Tag)
  : option DiscoveredLink :=
  match tag_attrs link_tag !! "href" with
  | None => None
  | Some href =>
      if negb (Py.startswith href "http") then None
      else
        let link_text := get_text_strip link_tag in
        Some {| url := href; link_text := link_text;
                lesson := lesson_title;
                display := result_text href lesson_title |}
  end.

(** [extract_urls_from_page] *)
Definition extract_urls_from_page (soup : Soup) (lesson_title : string)
  : list DiscoveredLink :=
  omap (url_entry_of lesson_title) (find_all_with soup "a" "href").

(** ** Exceptions

    A call that can raise returns a [result]: [Ok] with its value, or
    [Raise] with the exception.  Only exceptions below [Exception] are
    modelled (they are what the handlers of the scanner catch). *)

Inductive exn :=
| ValueError (msg : string)          (* raised by [urlparse] *)
| WebDriverException (msg : string). (* raised by the browser or the parser *)

(** [str(e)] *)
Definition str_exn (e : exn) : string :=
  match e with ValueError msg | WebDriverException msg => msg end.

Inductive result (A : Type) :=
| Ok (a : A)
| Raise (e : exn).
Arguments Ok {A} a.
Arguments Raise {A} e.

(** ** The collaborators

    - [World] is the state of the browser and of the sites it loads;
      [driver_get w u] stands for [driver.get(u)], the settle delay,
      [driver.page_source] and the parse of the page: it gives the next
      state of the world and the parsed page, or the exception raised.
    - [set_iter] is the order in which a [for] loop runs through a Python
      set of strings: some enumeration of its elements.
    - [as_completed] is the order in which the futures of the worker pool
      complete: some enumeration of the submitted calls.
    - [check_bracketed_netloc] is the check [urlsplit] applies to a network
      location that carries both ['['] and [']'] (it parses an IP literal).
    - [requests_head u] is the outcome of
      [requests.head(u, timeout=timeout, allow_redirects=True)]. *)

Inductive RequestsExc :=
| ReadTimeout          (* a Timeout *)
| ConnectTimeout       (* a ConnectionError and a Timeout *)
| ConnectionError      (* with ProxyError and SSLError *)
| TooManyRedirects
| OtherException.      (* any other subclass of Exception *)

Inductive HeadOutcome :=
| Response (status_code : Z) (final_url : string)
| HeadRaises (cls : RequestsExc) (str_e : string).

Class Collaborators := {
  World : Type;
  driver_get : World → string → World * result Soup;
  set_iter : gset string → list string;
  set_iter_perm : ∀ s, set_iter s ≡ₚ elements s;
  as_completed : list string → list string;
  as_completed_perm : ∀ l, as_completed l ≡ₚ l;
  check_bracketed_netloc : string → bool;
  requests_head : string → HeadOutcome
}.

(** ** [urllib.parse.urlparse], as in CPython 3.12

    [_checknetloc] only rejects network locations whose NFKC form gains one
    of [/?#@:]; no code point up to 255 does that, so it is the identity
    here. *)

Module UrlParse.

Record ParseResult := {
  scheme : string;
  netloc : string;
  path : string;
  params : string;
  query : string;
  fragment : string
}.

(** [url.lstrip(_WHATWG_C0_CONTROL_OR_SPACE)] *)
Fixpoint lstrip_c0 (s : string) : string :=
  match s with
  | EmptyString => EmptyString
  | String a s' => if (N_of_ascii a <=? 32)%N then lstrip_c0 s' else s
  end.

(** Removal of the characters of [_UNSAFE_URL_BYTES_TO_REMOVE]. *)
Fixpoint remove_unsafe (s : string) : string :=
  match s with
  | EmptyString => EmptyString
  | String a s' =>
      let n := N_of_ascii a in
      if ((n =? 9) || (n =? 13) || (n =? 10))%N then remove_unsafe s'
      else String a (remove_unsafe s')
  end.

Definition is_alpha (c : ascii) : bool :=
  let n := N_of_ascii c in
  ((65 <=? n) && (n <=? 90) || (97 <=? n) && (n <=? 122))%N.

Definition is_scheme_char (c : ascii) : bool :=
  let n := N_of_ascii c in
  (is_alpha c || (48 <=? n) && (n <=? 57)
   || (n =? 43) || (n =? 45) || (n =? 46))%N.

Fixpoint all_chars (p : ascii → bool) (s : string) : bool :=
  match s with
  | EmptyString => true
  | String a s' => p a && all_chars p s'
  end.

(** The scheme test of [urlsplit]: [i = url.find(':')], [i > 0], the first
    character an ASCII letter and every character before the colon a scheme
    character.  Gives the lower-cased scheme and the rest of the URL. *)
Definition split_scheme (url : string) : string * string :=
  if Py.has_char ":" url then
    let before := Py.before_first ":" url in
    match before with
    | EmptyString => ("", url)
    | String c _ =>
        if is_alpha c && all_chars is_scheme_char before
        then (Py.lower before, Py.after_first ":" url)
        else ("", url)
    end
  else ("", url).

(** [_splitnetloc(url, 2)] behind the leading [//]: the network location
    runs up to the first of [/], [?] and [#]. *)
Fixpoint splitnetloc (s : string) : string * string :=
  match s with
  | EmptyString => ("", "")
  | String a s' =>
      if bool_decide (a = "/"%char) || bool_decide (a = "?"%char)
         || bool_decide (a = "#"%char)
      then ("", s)
      else let '(n, r) := splitnetloc s' in (String a n, r)
  end.

(** [(url[:i], url[i:])] for [i = url.rfind(c)], when [c] occurs. *)
Fixpoint rsplit_at (c : ascii) (s : string) : option (string * string) :=
  match s with
  | EmptyString => None
  | String a s' =>
      match rsplit_at c s' with
      | Some (h, t) => Some (String a h, t)
      | None => if bool_decide (a = c) then Some ("", s) else None
      end
  end.

(** [_splitparams] *)
Definition splitparams (url : string) : string * string :=
  match rsplit_at "/" url with
  | Some (h, t) =>
      if Py.has_char ";" t
      then (h +:+ Py.before_first ";" t, Py.after_first ";" t)
      else (url, "")
  | None => (Py.before_first ";" url, Py.after_first ";" url)
  end.

Definition uses_params : list string :=
  [""; "ftp"; "hdl"; "prospero"; "http"; "imap"; "https"; "shttp"; "rtsp";
   "rtspu"; "sip"; "sips"; "mms"; "sftp"; "tel"].

Section urlparse.
Context {env : Collaborators}.

(** [urlsplit(url)] followed by the parameter split of [urlparse]. *)
Definition urlparse (url : string) : result ParseResult :=
  let url := lstrip_c0 url in
  let url := remove_unsafe url in
  let '(scheme, url) := split_scheme url in
  let '(netloc, url) :=
    if Py.startswith url "//"
    then splitnetloc (Py.after_first "/" (Py.after_first "/" url))
    else ("", url) in
  let lb := Py.has_char "[" netloc in
  let rb := Py.has_char "]" netloc in
  if lb && negb rb || rb && negb lb then Raise (ValueError "Invalid IPv6 URL")
  else if lb && rb && negb (check_bracketed_netloc netloc)
  then Raise (ValueError "Invalid IPv6 URL")
  else
    let '(url, fragment) :=
      if Py.has_char "#" url
      then (Py.before_first "#" url, Py.after_first "#" url)
      else (url, "") in
    let '(url, query) :=
      if Py.has_char "?" url
      then (Py.before_first "?" url, Py.after_first "?" url)
      else (url, "") in
    let '(url, params) :=
      if bool_decide (scheme ∈ uses_params) && Py.has_char ";" url
      then splitparams url
      else (url, "") in
    Ok {| scheme := scheme; netloc := netloc; path := url;
          params := params; query := query; fragment := fragment |}.

End urlparse.

(** The host of a network location, the way the spec words it: the part
    behind the user information and before the port, split off as the
    [hostname] attribute of a parse result does it (letter case kept). *)
Definition host_component (netloc : string) : string :=
  let hostinfo :=
    match rsplit_at "@" netloc with
    | Some (_, t) => Py.after_first "@" t
    | None => netloc
    end in
  if Py.has_char "[" hostinfo
  then Py.before_first "]" (Py.after_first "[" hostinfo)
  else Py.before_first ":" hostinfo.

End UrlParse.

Section scanner.
Context {env : Collaborators}.

(** [is_similar_page] *)
Definition is_similar_page (url : string) : result bool :=
  match UrlParse.urlparse url with
  | Raise e => Raise e
  | Ok parsed =>
      if Py.contains (UrlParse.netloc parsed) "rise.articulate.com"
         && Py.contains (UrlParse.path parsed) "/share/"
      then Ok true
      else Ok false
  end.

(** [get_base_url] *)
Definition get_base_url (url : string) : string :=
  if Py.has_char "#" url then Py.before_first "#" url else url.

End scanner.

(** ** The link verifier *)

(** The dict [verify_url] returns. *)
Record VerificationResult := {
  status : string;
  code : option Z;
  message : string
}.

Definition isinstance_Timeout (c : RequestsExc) : bool :=
  match c with ReadTimeout | ConnectTimeout => true | _ => false end.

Definition isinstance_ConnectionError (c : RequestsExc) : bool :=
  match c with ConnectTimeout | ConnectionError => true | _ => false end.

Definition isinstance_TooManyRedirects (c : RequestsExc) : bool :=
  match c with TooManyRedirects => true | _ => false end.

(** The body of [verify_url] behind the call of [requests.head]: the chain
    of tests on the status code, and the [except] clauses in their order. *)
Definition classify (o : HeadOutcome) : VerificationResult :=
  match o with
  | Response status_code final_url =>
      if status_code =? 200 then
        {| status := "OK"; code := Some status_code;
           message := "URL is accessible" |}
      else if (300 <=? status_code) && (status_code <? 400) then
        {| status := "WARNING"; code := Some status_code;
           message := "Redirects to " +:+ final_url |}
      else if (400 <=? status_code) && (status_code <? 500) then
        {| status := "BROKEN"; code := Some status_code;
           message := "Client error (page not found or forbidden)" |}
      else if (500 <=? status_code) && (status_code <? 600) then
        {| status := "BROKEN"; code := Some status_code;
           message := "Server error" |}
      else
        {| status := "WARNING"; code := Some status_code;
           message := "Unexpected status code: " +:+ pretty status_code |}
  | HeadRaises cls str_e =>
      if isinstance_Timeout cls then
        {| status := "ERROR"; code := None; message := "Request timed out" |}
      else if isinstance_ConnectionError cls then
        {| status := "BROKEN"; code := None; message := "Connection failed" |}
      else if isinstance_TooManyRedirects cls then
        {| status := "WARNING"; code := None;
           message := "Too many redirects" |}
      else
        {| status := "ERROR"; code := None; message := "Error: " +:+ str_e |}
  end.

(** Python dicts keyed by strings, in insertion order. *)
Module Dict.

Definition t (V : Type) := list (string * V).

Definition keys {V} (d : t V) : list string := d.*1.

Fixpoint get {V} (d : t V) (k : string) : option V :=
  match d with
  | [] => None
  | (k', v) :: d' => if bool_decide (k' = k) then Some v else get d' k
  end.

(** [k in d] *)
Definition mem {V} (d : t V) (k : string) : bool :=
  bool_decide (is_Some (get d k)).

(** [d[k] = v]: the value of an existing key is replaced where it stands, a
    new key goes to the end. *)
Fixpoint set {V} (d : t V) (k : string) (v : V) : t V :=
  match d with
  | [] => [(k, v)]
  | (k', v') :: d' =>
      if bool_decide (k' = k) then (k, v) :: d' else (k', v') :: set d' k v
  end.

End Dict.

Section verifier.
Context {env : Collaborators}.

(** [verify_url] *)
Definition verify_url (url : string) : VerificationResult :=
  classify (requests_head url).

(** The first loop of [verify_all_urls]: the entries grouped by URL. *)
Definition group_step (unique_urls : Dict.t (list DiscoveredLink))
    (r : DiscoveredLink) : Dict.t (list DiscoveredLink) :=
  let unique_urls :=
    if negb (Dict.mem unique_urls (url r))
    then Dict.set unique_urls (url r) []
    else unique_urls in
  Dict.set unique_urls (url r)
           (default [] (Dict.get unique_urls (url r)) ++ [r])%list.

Definition group_by_url (all_results : list DiscoveredLink)
  : Dict.t (list DiscoveredLink) :=
  foldl group_step [] all_results.

(** The URLs handed to [executor.submit(self.verify_url, url)], one call
    for each element of the list, in the order of the comprehension. *)
Definition submitted_urls (all_results : list DiscoveredLink) : list string :=
  Dict.keys (group_by_url all_results).

(** [future.result()] of the call submitted for [url]. *)
Definition future_result (url : string) : result VerificationResult :=
  Ok (verify_url url).

(** The second loop: the futures are taken as they complete. *)
Definition collect_step (verified_results : Dict.t VerificationResult)
    (url : string) : Dict.t VerificationResult :=
  match future_result url with
  | Ok verification => Dict.set verified_results url verification
  | Raise e =>
      Dict.set verified_results url
        {| status := "ERROR"; code := None; message := str_exn e |}
  end.

(** The second loop run over the futures of the submitted calls. *)
Definition collect_all (all_results : list DiscoveredLink)
  : Dict.t VerificationResult :=
  foldl collect_step [] (as_completed (submitted_urls all_results)).

(** [verify_all_urls].  The groups are built first; then
    [ThreadPoolExecutor(max_workers=max_workers)] refuses a pool of no
    workers with a [ValueError], before any call is submitted. *)
Definition verify_all_urls (max_workers : Z)
    (all_results : list DiscoveredLink)
  : result (Dict.t VerificationResult * Dict.t (list DiscoveredLink)) :=
  let unique_urls := group_by_url all_results in
  if max_workers <=? 0
  then Raise (ValueError "max_workers must be greater than 0")
  else
    let verified_results := collect_all all_results in
    Ok (verified_results, unique_urls).

End verifier.

(** ** The traversal engine *)

(** A recursive invocation [scan_course(course_url, depth, ...)]. *)
Definition Call : Type := string * Z.

Section traversal.
Context {env : Collaborators}.

(** The mutable state of an [ArticulateScanner]. *)
Record Scanner := {
  driver : World;
  visited_pages : gset string;
  all_results : list DiscoveredLink
}.

(** A method body: it updates the scanner in place and returns a value or
    raises; what it did to the scanner before it raised stays done. *)
Definition M (A : Type) : Type := Scanner → Scanner * result A.

Definition ret {A} (a : A) : M A := λ s, (s, Ok a).

Definition bind {A B} (m : M A) (f : A → M B) : M B :=
  λ s, match m s with
       | (s', Ok a) => f a s'
       | (s', Raise e) => (s', Raise e)
       end.

Definition lift {A} (r : result A) : M A := λ s, (s, r).

#[local] Notation "'let*' x := m 'in' k" := (bind m (λ x, k))
  (at level 10, x name, m at level 100, k at level 200, only parsing).

(** [for x in l: acc = f(acc, x)] *)
Fixpoint for_each {A B} (f : B → A → M B) (acc : B) (l : list A) : M B :=
  match l with
  | [] => ret acc
  | x :: l' => let* acc' := f acc x in for_each f acc' l'
  end.

(** [self.driver.get(url)], the settle delay and
    [BeautifulSoup(self.driver.page_source, 'html.parser')]. *)
Definition load (url : string) : M Soup :=
  λ s, let '(w, r) := driver_get (driver s) url in
       ({| driver := w; visited_pages := visited_pages s;
           all_results := all_results s |}, r).

(** [any(r['display'] == url_data['display'] for r in self.all_results)] *)
Definition already_listed (results : list DiscoveredLink)
    (url_data : DiscoveredLink) : bool :=
  existsb (λ r, bool_decide (display r = display url_data)) results.

(** The first statement of the loop over [urls], on the list alone. *)
Definition add_result (results : list DiscoveredLink)
    (url_data : DiscoveredLink) : list DiscoveredLink :=
  if negb (already_listed results url_data) then results ++ [url_data]
  else results.

Definition append_result (url_data : DiscoveredLink) : M unit :=
  λ s, ({| driver := driver s; visited_pages := visited_pages s;
           all_results := add_result (all_results s) url_data |}, Ok tt).

(** The second statement: [is_similar_page] runs first and may raise. *)
Definition collect_candidate (depth max_depth : Z)
    (external_courses : gset string) (url_data : DiscoveredLink)
  : M (gset string) :=
  let* similar := lift (is_similar_page (url url_data)) in
  ret (if similar && (depth <? max_depth)
       then {[url url_data]} ∪ external_courses
       else external_courses).

(** The body of the loop over [urls]. *)
Definition scan_url (depth max_depth : Z) (external_courses : gset string)
    (url_data : DiscoveredLink) : M (gset string) :=
  let* _ := append_result url_data in
  collect_candidate depth max_depth external_courses url_data.

(** The body of the loop over [lesson_links]. *)
Definition scan_lesson (depth max_depth : Z) (external_courses : gset string)
    (lesson : LessonLink) : M (gset string) :=
  let* lesson_soup := load (lesson_url lesson) in
  let lesson_title := get_lesson_title lesson_soup in
  let urls := extract_urls_from_page lesson_soup lesson_title in
  for_each (scan_url depth max_depth) external_courses urls.

(** The [try] block of [scan_course] up to the end of the loop over the
    lessons: it gives the candidates for recursion. *)
Definition scan_lessons (course_url base_url : string) (depth max_depth : Z)
  : M (gset string) :=
  let* soup := load course_url in
  let lesson_links := get_lesson_links soup base_url in
  for_each (scan_lesson depth max_depth) ∅ lesson_links.

(** [for ext_course in external_courses: self.scan_course(ext_course,
    depth + 1, ...)], with [rec] the recursive call.  Besides the scanner
    it gives the invocations made, in the order they were made. *)
Fixpoint scan_each (rec : string → Scanner → option (Scanner * list Call))
    (depth' : Z) (courses : list string) (s : Scanner)
  : option (Scanner * list Call) :=
  match courses with
  | [] => Some (s, [])
  | ext_course :: rest =>
      match rec ext_course s with
      | None => None
      | Some (s1, calls1) =>
          match scan_each rec depth' rest s1 with
          | None => None
          | Some (s2, calls2) =>
              Some (s2, ((ext_course, depth') :: calls1 ++ calls2)%list)
          end
      end
  end.

(** [self.visited_pages.add(base_url)] *)
Definition mark_visited (base_url : string) (s : Scanner) : Scanner :=
  {| driver := driver s;
     visited_pages := {[base_url]} ∪ visited_pages s;
     all_results := all_results s |}.

(** [scan_course], by recursion on [fuel]; [None] when the fuel runs out.
    The second component lists the recursive invocations the call made,
    nested ones included. *)
Fixpoint scan_course_fuel (fuel : nat) (course_url : string)
    (depth max_depth : Z) (s : Scanner) : option (Scanner * list Call) :=
  match fuel with
  | O => None
  | S fuel' =>
      let base_url := get_base_url course_url in
      if bool_decide (base_url ∈ visited_pages s) then Some (s, [])
      else
        let s := mark_visited base_url s in
        match scan_lessons course_url base_url depth max_depth s with
        | (s', Raise e) => Some (s', [])
        | (s', Ok external_courses) =>
            if bool_decide (external_courses ≠ ∅) && (depth <? max_depth)
            then scan_each (λ c, scan_course_fuel fuel' c (depth + 1) max_depth)
                           (depth + 1) (set_iter external_courses) s'
            else Some (s', [])
        end
  end.

(** The recursion goes one level deeper only while [depth < max_depth], so
    this much fuel is enough. *)
Definition scan_course (course_url : string) (depth max_depth : Z)
    (s : Scanner) : option (Scanner * list Call) :=
  scan_course_fuel (S (Z.to_nat (max_depth - depth)))
                   course_url depth max_depth s.

(** [ArticulateScanner.__init__] *)
Definition init (w : World) : Scanner :=
  {| driver := w; visited_pages := ∅; all_results := [] |}.

End traversal.

(** ** A small site, for running the scanner

    Course A has two lessons.  Both link to [https://example.com/ok]; the
    first also links to course B.  Course B has one lesson, which links back
    to course A and on to course C, whose landing page fails to render.
    Course T stands alone: its one lesson links to [https://example.com/ok]
    twice, under two texts. *)

Module Demo.

Definition anchor (href text : string) : Tag :=
  {| tag_name := "a"; tag_attrs := {[ "href" := href ]};
     tag_class := []; tag_strings := [text] |}.

Definition nav (href text : string) : Tag :=
  {| tag_name := "a";
     tag_attrs := {[ "href" := href; "data-link" := "lesson-link-item" ]};
     tag_class := ["lesson-link"]; tag_strings := [text] |}.

Definition heading (text : string) : Tag :=
  {| tag_name := "h1"; tag_attrs := ∅;
     tag_class := ["lesson-header__title"]; tag_strings := [text] |}.

Definition course_A := "https://rise.articulate.com/share/A".
Definition course_B := "https://rise.articulate.com/share/B".
Definition course_C := "https://rise.articulate.com/share/C".
Definition course_T := "https://rise.articulate.com/share/T".
Definition ok_url := "https://example.com/ok".

Definition site (u : string) : result Soup :=
  if bool_decide (u = course_A) then
    Ok [nav "#/lessons/l1" "First"; nav "#/lessons/l2" "Second"]
  else if bool_decide (u = course_A +:+ "#/lessons/l1") then
    Ok [heading "Lesson A"; anchor ok_url "ok"; anchor course_B "next course"]
  else if bool_decide (u = course_A +:+ "#/lessons/l2") then
    Ok [heading "Lesson B"; anchor ok_url "ok again"]
  else if bool_decide (u = course_B) then
    Ok [nav "#/lessons/m1" "Only"]
  else if bool_decide (u = course_B +:+ "#/lessons/m1") then
    Ok [heading "Lesson M"; anchor course_A "back"; anchor course_C "on"]
  else if bool_decide (u = course_T) then
    Ok [nav "#/lessons/t1" "Twins"]
  else if bool_decide (u = course_T +:+ "#/lessons/t1") then
    Ok [heading "Lesson T"; anchor ok_url "first";
        anchor "https://example.com/other" "between";
        anchor ok_url "second"]
  else Raise (WebDriverException "net::ERR_NAME_NOT_RESOLVED").

Definition head_of (u : string) : HeadOutcome :=
  if bool_decide (u = ok_url) then Response 200 u
  else if bool_decide (u = course_C) then HeadRaises ConnectionError "refused"
  else if bool_decide (u = "https://example.com/empty") then Response 204 u
  else if bool_decide (u = "https://example.com/slow")
  then HeadRaises ConnectTimeout "timed out"
  else Response 301 (u +:+ "/").

(** The world is the list of the pages requested so far, latest first. *)
Definition collaborators : Collaborators := {|
  World := list string;
  driver_get := λ w u, (u :: w, site u);
  set_iter := elements;
  set_iter_perm := λ s, reflexivity (elements s);
  as_completed := reverse;
  as_completed_perm := λ l, reverse_Permutation l;
  check_bracketed_netloc := λ _, true;
  requests_head := head_of
|}.

(** A scanner on this site. *)
Definition scanner (w : list string) (visited : gset string)
    (results : list DiscoveredLink) : @Scanner collaborators :=
  @Build_Scanner collaborators w visited results.

End Demo.

(** ** Invariants of the traversal *)

Section invariants.
Context {env : Collaborators}.

(** The display strings of a result list. *)
Definition displays (results : list DiscoveredLink) : list string :=
  display <$> results.

(** What a step of the traversal may do to the scanner: the visited set
    only grows, the result list is only extended at its end, and no display
    string comes to stand twice in it. *)
Record grows (s s' : Scanner) : Prop := {
  grows_visited : visited_pages s ⊆ visited_pages s';
  grows_results : all_results s `prefix_of` all_results s';
  grows_nodup : NoDup (displays (all_results s)) →
                NoDup (displays (all_results s'))
}.

(** A method body that respects a relation on scanners, whether it returns
    or raises. *)
Definition respects (R : relation Scanner) {A} (m : M A) : Prop :=
  ∀ s, R s (m s).1.

(** The visited set is as it was. *)
Definition same_visited : relation Scanner :=
  λ s s', visited_pages s' = visited_pages s.



End invariants.

(** An entry as [extract_urls_from_page] builds it: the target begins with
    http and the display string is made of the target and the lesson. *)
Definition well_formed (d : DiscoveredLink) : Prop :=
  Py.startswith (url d) "http" = true
  ∧ display d = url d +:+ " is in '" +:+ lesson d +:+ "'".

(** The base URLs of the courses of a list of invocations. *)
Definition bases (calls : list Call) : gset string :=
  list_to_set ((λ c : Call, get_base_url c.1) <$> calls).

(** The result list keeps its entries well formed. *)
Definition keeps_well_formed {env : Collaborators} : relation Scanner :=
  λ s s', Forall well_formed (all_results s) →
          Forall well_formed (all_results s').

(** ** Readings of the spec, for comparison with the code *)

(** An absolute URL with scheme http or https: the text before the first
    colon is a URL scheme, and it reads http or https in any letter case. *)
Definition absolute_http_url (href : string) : Prop :=
  let scheme := (UrlParse.split_scheme href).1 in
  scheme = "http" ∨ scheme = "https".

(** ** The command line ([cli.py])

    What [print_results] and [main] print is kept as a list of lines, one
    constructor for each [print] call that carries data; banners and rules
    are left out. *)

Inductive Icon := IconOK | IconWarning | IconBroken | IconOther.

Inductive Line :=
| ResultLine (i : nat) (icon : Icon) (status display : string)
| PlainResultLine (i : nat) (display : string)
| LinkTextLine (link_text : string)
| VerificationLine (message : string)
| HttpStatusLine (code : Z)
| BlankLine
| TotalLine (n : nat)
| UniqueLine (n : nat)
| WorkingLine (n : nat)
| WarningsLine (n : nat)
| BrokenLine (n : nat)
| ErrorsLine (n : nat).

(** The four counters of [print_results]. *)
Record Tally := {
  working_count : nat;
  warning_count : nat;
  broken_count : nat;
  error_count : nat
}.

(** What the command line code can raise. *)
Inductive cli_exn :=
| KeyError (key : string)
| Propagated (e : exn).

Inductive outcome (A : Type) :=
| Returns (a : A)
| Raises (e : cli_exn).
Arguments Returns {A} a.
Arguments Raises {A} e.

(** The chain of tests on [status]: the icon and the counter to step. *)
Definition count_status (status : string) (t : Tally) : Icon * Tally :=
  if bool_decide (status = "OK") then
    (IconOK, {| working_count := S (working_count t);
                warning_count := warning_count t;
                broken_count := broken_count t;
                error_count := error_count t |})
  else if bool_decide (status = "WARNING") then
    (IconWarning, {| working_count := working_count t;
                     warning_count := S (warning_count t);
                     broken_count := broken_count t;
                     error_count := error_count t |})
  else if bool_decide (status = "BROKEN") then
    (IconBroken, {| working_count := working_count t;
                    warning_count := warning_count t;
                    broken_count := S (broken_count t);
                    error_count := error_count t |})
  else
    (IconOther, {| working_count := working_count t;
                   warning_count := warning_count t;
                   broken_count := broken_count t;
                   error_count := S (error_count t) |}).

(** The loop of [print_results] from entry number [i] on.  The dict given
    to [verified_results.get] as default has the keys ['status'] and
    ['message'] only, so [verification['code']] raises for it; the lines
    printed before stay printed. *)
Fixpoint print_entries (verified_results : Dict.t VerificationResult)
    (i : nat) (results : list DiscoveredLink) (t : Tally)
  : list Line * outcome Tally :=
  match results with
  | [] => ([], Returns t)
  | result :: rest =>
      let verification := Dict.get verified_results (url result) in
      let status := from_option status "UNKNOWN" verification in
      let '(status_icon, t) := count_status status t in
      let lines :=
        [ResultLine i status_icon status (display result)]
        ++ (if bool_decide (link_text result ≠ "")
            then [LinkTextLine (link_text result)] else [])
        ++ [VerificationLine
              (from_option message "Not verified" verification)] in
      match verification with
      | None => (lines, Raises (KeyError "code"))
      | Some v =>
          let lines :=
            lines
            ++ match code v with
               | Some c => if bool_decide (c ≠ 0) then [HttpStatusLine c]
                           else []
               | None => []
               end
            ++ [BlankLine] in
          let '(more, o) := print_entries verified_results (S i) rest t in
          (lines ++ more, o)
      end
  end.

(** [print_results] *)
Definition print_results (all_results : list DiscoveredLink)
    (verified_results : Dict.t VerificationResult)
    (unique_urls : Dict.t (list DiscoveredLink))
  : list Line * outcome Tally :=
  match print_entries verified_results 1 all_results
          {| working_count := 0; warning_count := 0;
             broken_count := 0; error_count := 0 |} with
  | (lines, Raises e) => (lines, Raises e)
  | (lines, Returns t) =>
      (lines ++ [TotalLine (length all_results);
                 UniqueLine (length unique_urls);
                 WorkingLine (working_count t);
                 WarningsLine (warning_count t);
                 BrokenLine (broken_count t);
                 ErrorsLine (error_count t)],
       Returns t)
  end.

(** The listing of [main] under [--no-verify], from entry number [i] on. *)
Fixpoint print_plain (i : nat) (results : list DiscoveredLink) : list Line :=
  match results with
  | [] => []
  | result :: rest =>
      [PlainResultLine i (display result)]
      ++ (if bool_decide (link_text result ≠ "")
          then [LinkTextLine (link_text result)] else [])
      ++ [BlankLine] ++ print_plain (S i) rest
  end.

(** The parsed arguments of [main]. *)
Record Args := {
  arg_url : string;
  arg_max_depth : Z;
  arg_no_verify : bool;
  arg_no_headless : bool;
  arg_max_workers : Z;
  arg_quiet : bool
}.

(** What [parser.parse_args()] does with the command line: it returns the
    parsed arguments, or it prints the help or the version and ends the
    process with status 0, or it rejects the command line and ends the
    process with status 2. *)
Inductive ParseOutcome :=
| Parsed (args : Args)
| HelpOrVersion
| Rejected.

(** The browser session and the argument parser: [webdriver_Chrome
    headless] stands for the start of the browser in
    [ArticulateScanner.__init__], [driver_quit] for [self.driver.quit()] in
    [__exit__], [parse_args] for [parser.parse_args()] on the command
    line. *)
Class Session `{Collaborators} := {
  webdriver_Chrome : bool → result World;
  driver_quit : World → World * result unit;
  parse_args : list string → ParseOutcome
}.

(** What [main] leaves behind: the exit status of the process, the browser
    if one was started, and the result lines printed. *)
Record MainOutcome `{Collaborators} := {
  exit_status : Z;
  browser : option World;
  printed : list Line
}.

Section cli.
Context {env : Collaborators} {session : Session}.

(** The body of the [with] block of [main] behind the scan. *)
Definition report (args : Args) (s : Scanner) : list Line * outcome unit :=
  if negb (arg_no_verify args) then
    match verify_all_urls (arg_max_workers args) (all_results s) with
    | Raise e => ([], Raises (Propagated e))
    | Ok (verified_results, unique_urls) =>
        match print_results (all_results s) verified_results unique_urls with
        | (lines, Returns _) => (lines, Returns tt)
        | (lines, Raises e) => (lines, Raises e)
        end
    end
  else (print_plain 1 (all_results s), Returns tt).

(** [main] behind [parser.parse_args()], from the parsed arguments; [None]
    when the fuel of the scan runs out.  [sys.exit(1)] and the return from
    [main] give the exit status; an interrupt from the keyboard is not
    modelled. *)
Definition run (args : Args) : option MainOutcome :=
  if negb (Py.startswith (arg_url args) "http") then
    Some {| exit_status := 1; browser := None; printed := [] |}
  else
    match webdriver_Chrome (negb (arg_no_headless args)) with
    | Raise e => Some {| exit_status := 1; browser := None; printed := [] |}
    | Ok w =>
        match scan_course (arg_url args) 0 (arg_max_depth args) (init w) with
        | None => None
        | Some (s, _) =>
            let '(lines, o) := report args s in
            let '(w', q) := driver_quit (driver s) in
            Some {| exit_status :=
                      match o, q with
                      | Returns _, Ok _ => 0
                      | _, _ => 1
                      end;
                    browser := Some w';
                    printed := lines |}
        end
    end.

(** [main], from the command line. *)
Definition main (argv : list string) : option MainOutcome :=
  match parse_args argv with
  | HelpOrVersion =>
      Some {| exit_status := 0; browser := None; printed := [] |}
  | Rejected => Some {| exit_status := 2; browser := None; printed := [] |}
  | Parsed args => run args
  end.

End cli.

(** The demo site with a browser that starts and quits. *)
Module DemoCli.

#[local] Existing Instance Demo.collaborators.

Definition args (url : string) (no_verify : bool) (max_workers : Z) : Args :=
  {| arg_url := url; arg_max_depth := 2; arg_no_verify := no_verify;
     arg_no_headless := false; arg_max_workers := max_workers;
     arg_quiet := true |}.

(** A parser for a few shapes of command line: the URL alone, with the
    defaults of the other arguments; the help or the version flag alone;
    the URL behind [--max-workers 0]; every other command line, the empty
    one among them, is rejected. *)
Definition parse (argv : list string) : ParseOutcome :=
  match argv with
  | [a] =>
      if bool_decide (a = "--version") || bool_decide (a = "--help")
         || bool_decide (a = "-h")
      then HelpOrVersion
      else if Py.startswith a "-" then Rejected
      else Parsed (args a false 10)
  | [a; n; u] =>
      if bool_decide (a = "--max-workers") && bool_decide (n = "0")
      then Parsed (args u false 0)
      else Rejected
  | _ => Rejected
  end.

Definition session : @Session Demo.collaborators := {|
  webdriver_Chrome := λ _, Ok ([] : list string);
  driver_quit := λ w, ("quit" :: w, Ok tt);
  parse_args := parse
|}.

End DemoCli.

(** * Properties *)

(** ** Facts on the string operations *)

Module PyFacts.
Import Py.

Lemma startswith_app (p t : string) : startswith (p +:+ t) p = true.
Proof.
  induction p as [|a p IH]; [done|]. simpl.
  rewrite bool_decide_eq_true_2 by done. exact IH.
Qed.

Lemma startswith_spec (s p : string) :
  startswith s p = true ↔ ∃ t, s = p +:+ t.
Proof.
  split.
  - revert s. induction p as [|a p IH]; intros s Hs; simpl in *.
    + by exists s.
    + destruct s as [|b s]; [done|].
      apply andb_true_iff in Hs as [Hab Hs].
      apply bool_decide_eq_true in Hab as ->.
      destruct (IH _ Hs) as [t ->]. by exists t.
  - intros [t ->]. apply startswith_app.
Qed.

Lemma startswith_nil_r (p : string) : startswith "" p = true → p = "".
Proof. by destruct p. Qed.

Lemma contains_startswith (s p : string) :
  startswith s p = true → contains s p = true.
Proof. intros Hs. destruct s; simpl; by rewrite Hs. Qed.

Lemma contains_spec (s p : string) :
  contains s p = true ↔ ∃ a b, s = a +:+ p +:+ b.
Proof.
  split.
  - induction s as [|c s IH]; simpl; intros Hc.
    + rewrite orb_false_r in Hc. apply startswith_nil_r in Hc as ->.
      by exists "", "".
    + apply orb_true_iff in Hc as [Hc|Hc].
      * apply startswith_spec in Hc as [t Ht]. exists "", t. by rewrite Ht.
      * destruct (IH Hc) as (a & b & ->). by exists (String c a), b.
  - intros (a & b & ->). induction a as [|c a IH].
    + apply contains_startswith, (startswith_app p b).
    + simpl in *. rewrite IH. apply orb_true_r.
Qed.

Lemma contains_false_tail (c : ascii) (s p : string) :
  contains (String c s) p = false →
  startswith (String c s) p = false ∧ contains s p = false.
Proof. simpl. intros Hc. by apply orb_false_iff in Hc. Qed.

Lemma remove_all_from_skip (old pre s : string) :
  remove_all_from (String.length pre) old (pre +:+ s)
  = remove_all_from O old s.
Proof.
  induction pre as [|a pre IH]; simpl; [|exact IH].
  by destruct s.
Qed.

Lemma remove_all_absent (old s : string) :
  contains s old = false → remove_all_from O old s = s.
Proof.
  induction s as [|c s IH]; [done|].
  intros Hc. apply contains_false_tail in Hc as [Hs Hc].
  cbn [remove_all_from]. rewrite Hs, IH; done.
Qed.

(** Removing every occurrence of a non-empty [old] from [old +:+ s] gives
    [s] when [old] does not occur in [s]. *)
Lemma remove_all_prefix_once (old s : string) :
  old ≠ "" → contains s old = false → remove_all old (old +:+ s) = s.
Proof.
  intros Hne Hc. destruct old as [|a old]; [done|].
  unfold remove_all.
  change (String a old +:+ s) with (String a (old +:+ s)).
  cbn [remove_all_from].
  change (String a (old +:+ s)) with (String a old +:+ s).
  rewrite startswith_app. cbn [String.length].
  rewrite remove_all_from_skip. by apply remove_all_absent.
Qed.



End PyFacts.

(** ** The display string *)


(** The display string is built from the target URL and the lesson title
    alone. *)
Lemma display_url_entry (title0 : string) (t : Tag) (d : DiscoveredLink) :
  url_entry_of title0 t = Some d →
  display d = result_text (url d) title0 ∧ lesson d = title0 ∧
  link_text d = get_text_strip t ∧ tag_attrs t !! "href" = Some (url d) ∧
  Py.startswith (url d) "http" = true.
Proof.
  unfold url_entry_of. destruct (tag_attrs t !! "href") as [href|]; [|done].
  destruct (Py.startswith href "http") eqn:E; simpl; [|done].
  by intros [= <-].
Qed.

(** ** Classification of the outcome of a request *)

Section verify_url_facts.
Context {env : Collaborators}.

(** C3.  [verify_url] returns a record for every outcome of the HEAD
    request, decided by the status code or by the class of the exception:
    200 is OK; 300..399 is a WARNING naming the final URL; 400..499 and
    500..599 are BROKEN; any other code is a WARNING naming the code; a
    Timeout is an ERROR, a ConnectionError that is no Timeout is BROKEN,
    TooManyRedirects is a WARNING and any other exception an ERROR carrying
    its description; the four exception results carry no code. *)
Theorem verify_url_classification (u : string) :
  (∀ f, requests_head u = Response 200 f →
     verify_url u = {| status := "OK"; code := Some 200;
                       message := "URL is accessible" |}) ∧
  (∀ c f, requests_head u = Response c f → 300 ≤ c < 400 →
     verify_url u = {| status := "WARNING"; code := Some c;
                       message := "Redirects to " +:+ f |}) ∧
  (∀ c f, requests_head u = Response c f → 400 ≤ c < 500 →
     verify_url u = {| status := "BROKEN"; code := Some c;
         message := "Client error (page not found or forbidden)" |}) ∧
  (∀ c f, requests_head u = Response c f → 500 ≤ c < 600 →
     verify_url u = {| status := "BROKEN"; code := Some c;
                       message := "Server error" |}) ∧
  (∀ c f, requests_head u = Response c f →
     c ≠ 200 → ¬ (300 ≤ c < 600) →
     verify_url u = {| status := "WARNING"; code := Some c;
         message := "Unexpected status code: " +:+ pretty c |}) ∧
  (∀ cls m, requests_head u = HeadRaises cls m →
     isinstance_Timeout cls = true →
     verify_url u = {| status := "ERROR"; code := None;
                       message := "Request timed out" |}) ∧
  (∀ cls m, requests_head u = HeadRaises cls m →
     isinstance_Timeout cls = false → isinstance_ConnectionError cls = true →
     verify_url u = {| status := "BROKEN"; code := None;
                       message := "Connection failed" |}) ∧
  (∀ m, requests_head u = HeadRaises TooManyRedirects m →
     verify_url u = {| status := "WARNING"; code := None;
                       message := "Too many redirects" |}) ∧
  (∀ m, requests_head u = HeadRaises OtherException m →
     verify_url u = {| status := "ERROR"; code := None;
                       message := "Error: " +:+ m |}).
Proof.
  unfold verify_url.
  repeat split; intros;
    match goal with Hh : requests_head u = _ |- _ => rewrite Hh end;
    unfold classify.
  - done.
  - destruct (Z.eqb_spec c 200); [lia|].
    destruct (Z.leb_spec 300 c), (Z.ltb_spec c 400); done || lia.
  - destruct (Z.eqb_spec c 200); [lia|].
    destruct (Z.leb_spec 300 c), (Z.ltb_spec c 400),
      (Z.leb_spec 400 c), (Z.ltb_spec c 500); done || lia.
  - destruct (Z.eqb_spec c 200); [lia|].
    destruct (Z.leb_spec 300 c), (Z.ltb_spec c 400),
      (Z.leb_spec 400 c), (Z.ltb_spec c 500),
      (Z.leb_spec 500 c), (Z.ltb_spec c 600); done || lia.
  - destruct (Z.eqb_spec c 200); [lia|].
    destruct (Z.leb_spec 300 c), (Z.ltb_spec c 400),
      (Z.leb_spec 400 c), (Z.ltb_spec c 500),
      (Z.leb_spec 500 c), (Z.ltb_spec c 600); done || lia.
  - by destruct cls.
  - by destruct cls.
  - done.
  - done.
Qed.

End verify_url_facts.

(** On the demo site: a 200, a 301, a 204, a refused connection and a
    connection that timed out. *)
Lemma verify_url_classification_witness :
  verify_url (env := Demo.collaborators) Demo.ok_url
    = {| status := "OK"; code := Some 200; message := "URL is accessible" |}
  ∧ verify_url (env := Demo.collaborators) Demo.course_A
    = {| status := "WARNING"; code := Some 301;
         message := "Redirects to https://rise.articulate.com/share/A/" |}
  ∧ verify_url (env := Demo.collaborators) "https://example.com/empty"
    = {| status := "WARNING"; code := Some 204;
         message := "Unexpected status code: 204" |}
  ∧ verify_url (env := Demo.collaborators) Demo.course_C
    = {| status := "BROKEN"; code := None; message := "Connection failed" |}
  ∧ verify_url (env := Demo.collaborators) "https://example.com/slow"
    = {| status := "ERROR"; code := None; message := "Request timed out" |}.
Proof.
  pose proof (λ u, verify_url_classification (env := Demo.collaborators) u)
    as Hv.
  split_and!.
  - apply (proj1 (Hv Demo.ok_url)) with (f := Demo.ok_url). reflexivity.
  - apply (proj1 (proj2 (Hv Demo.course_A))) with (f := Demo.course_A +:+ "/").
    + reflexivity.
    + lia.
  - apply (proj1 (proj2 (proj2 (proj2 (proj2 (Hv "https://example.com/empty"))))))
      with (f := "https://example.com/empty").
    + reflexivity.
    + lia.
    + lia.
  - apply (proj1 (proj2 (proj2 (proj2 (proj2 (proj2 (proj2
             (Hv Demo.course_C))))))))
      with (cls := ConnectionError) (m := "refused"); reflexivity.
  - apply (proj1 (proj2 (proj2 (proj2 (proj2 (proj2
             (Hv "https://example.com/slow")))))))
      with (cls := ConnectTimeout) (m := "timed out"); reflexivity.
Defined.

(** ** What the markup extractor keeps *)

Lemma url_entry_of_cases (lesson_title : string) (t : Tag) :
  url_entry_of lesson_title t
  = if decide (is_Some (tag_attrs t !! "href")
               ∧ Py.startswith (tag_get t "href") "http" = true)
    then Some {| url := tag_get t "href";
                 link_text := get_text_strip t;
                 lesson := lesson_title;
                 display := tag_get t "href" +:+ " is in '"
                            +:+ lesson_title +:+ "'" |}
    else None.
Proof.
  unfold url_entry_of, tag_get.
  destruct (tag_attrs t !! "href") as [href|]; cbn [from_option id].
  - destruct (Py.startswith href "http") eqn:E; cbn [negb].
    + rewrite decide_True; [done|]. eauto.
    + rewrite decide_False; [done|]. intros [_ ?]. done.
  - rewrite decide_False; [done|]. intros [[? ?] _]. done.
Qed.

(** C6, the claim as stated fails: a relative link to the file
    [httpd.html] begins with the letters http, carries no scheme, and is
    kept. *)
Lemma extract_urls_keeps_relative_link :
  extract_urls_from_page [Demo.anchor "httpd.html" "manual"] "Intro"
    = [ {| url := "httpd.html"; link_text := "manual"; lesson := "Intro";
           display := "httpd.html is in 'Intro'" |} ]
  ∧ ¬ absolute_http_url "httpd.html".
Proof.
  split; [by vm_compute|].
  vm_compute. intros [Hs|Hs]; discriminate Hs.
Qed.

(** C6, amended.  [extract_urls_from_page] keeps exactly the anchors that
    carry a link target beginning with the four characters http, in
    document order; an anchor without a target, or with a target that does
    not begin so, leaves no entry.  Every entry records the target, the
    stripped anchor text, the lesson title it was given and the display
    string built from the target and that title. *)
Theorem extract_urls_from_page_spec (soup : Soup) (lesson_title : string) :
  extract_urls_from_page soup lesson_title
  = (λ t, {| url := tag_get t "href";
             link_text := get_text_strip t;
             lesson := lesson_title;
             display := tag_get t "href" +:+ " is in '"
                        +:+ lesson_title +:+ "'" |})
    <$> filter (λ t, tag_name t = "a" ∧ is_Some (tag_attrs t !! "href")
                     ∧ Py.startswith (tag_get t "href") "http" = true) soup
  ∧ (∀ href, Py.startswith href "http" = true ↔ ∃ rest, href = "http" +:+ rest)
  ∧ (∀ rest, Py.startswith ("http://" +:+ rest) "http" = true
             ∧ Py.startswith ("https://" +:+ rest) "http" = true
             ∧ Py.startswith ("mailto:" +:+ rest) "http" = false
             ∧ Py.startswith ("#" +:+ rest) "http" = false
             ∧ Py.startswith ("/" +:+ rest) "http" = false).
Proof.
  split; [|split; [intros; apply PyFacts.startswith_spec|done]].
  unfold extract_urls_from_page, find_all_with.
  induction soup as [|t soup IH]; [done|].
  rewrite !filter_cons.
  destruct (decide (tag_name t = "a" ∧ is_Some (tag_attrs t !! "href")))
    as [[Ha Hh]|Hno].
  - cbn [omap list_omap]. rewrite url_entry_of_cases, IH.
    repeat case_decide; try done; tauto.
  - rewrite decide_False; [exact IH|]. intros (? & ? & _). by apply Hno.
Qed.

(** C7, the claim as stated fails: the lesson id is the target with every
    occurrence of the prefix removed, not only the leading one, and the
    title is stripped after it is cut at the line break. *)
Lemma get_lesson_links_not_suffix :
  let href := "#/lessons/a#/lessons/b" in
  let text := "Intro " +:+ String LF "1 of 2" in
  get_lesson_links [Demo.nav href text] "https://h/share/c"
    = [ {| lesson_url := "https://h/share/c#/lessons/ab";
           title := "Intro"; lesson_id := "ab" |} ]
  ∧ href = "#/lessons/" +:+ "a#/lessons/b"
  ∧ "ab" ≠ "a#/lessons/b"
  ∧ Py.before_first LF text = "Intro "
  ∧ "Intro" ≠ "Intro ".
Proof. by vm_compute. Qed.

(** C7, amended.  The output of [get_lesson_links] lists, in document
    order, one entry for every anchor of the page that carries the marker
    attribute and a target beginning with the lesson prefix, and nothing
    else.  For each such anchor: when the prefix does not occur again behind
    the leading one, the lesson id of its entry is the rest of the target
    (in every case it is the target with each occurrence of the prefix
    deleted); its URL is the base URL, the prefix and the id; its title is
    the stripped text of the anchor, cut before the first line break and
    stripped again when the text contains one. *)
Theorem get_lesson_links_spec (soup : Soup) (base_url : string) :
  Forall2
    (λ t l,
       ∃ rest, tag_get t "href" = "#/lessons/" +:+ rest
             ∧ (Py.contains rest "#/lessons/" = false → lesson_id l = rest)
             ∧ lesson_id l = Py.remove_all "#/lessons/" (tag_get t "href")
             ∧ lesson_url l = base_url +:+ "#/lessons/" +:+ lesson_id l
             ∧ title l = let text := get_text_strip t in
                         if Py.has_char LF text
                         then Py.strip (Py.before_first LF text)
                         else text)
    (filter (λ t, tag_name t = "a"
                  ∧ tag_attrs t !! "data-link" = Some "lesson-link-item"
                  ∧ Py.startswith (tag_get t "href") "#/lessons/" = true)
            soup)
    (get_lesson_links soup base_url).
Proof.
  unfold get_lesson_links, find_all_attr.
  induction soup as [|t soup IH]; [constructor|].
  rewrite !filter_cons.
  destruct (decide (tag_name t = "a"
      ∧ tag_attrs t !! "data-link" = Some "lesson-link-item")) as [[Ha Hd]|Hno].
  - cbn [omap list_omap]. unfold lesson_link_of at 1.
    destruct (Py.startswith (tag_get t "href") "#/lessons/") eqn:E.
    + rewrite decide_True by done.
      apply PyFacts.startswith_spec in E as [rest Hrest].
      rewrite bool_decide_eq_true_2 by (rewrite Hrest; done).
      cbn [andb]. constructor; [|exact IH].
      exists rest. cbn [lesson_id lesson_url title].
      split_and!; [done| |done..].
      intros Honce. rewrite Hrest.
      by rewrite PyFacts.remove_all_prefix_once.
    + rewrite andb_false_r. rewrite decide_False; [exact IH|].
      intros (_ & _ & ?). done.
  - rewrite decide_False; [exact IH|]. intros (? & ? & _). by apply Hno.
Qed.

(** A landing page with two lesson anchors, one anchor without the marker
    and one marked anchor that leads elsewhere. *)
Lemma get_lesson_links_spec_witness :
  let soup := [Demo.nav "#/lessons/l1" "First";
               Demo.anchor "#/lessons/l9" "Unmarked";
               Demo.nav "https://example.com/" "Elsewhere";
               Demo.nav "#/lessons/l2" ("Second" +:+ String LF "2 of 2")] in
  ∃ l1 l2,
    get_lesson_links soup Demo.course_A = [l1; l2]
    ∧ lesson_id l1 = "l1" ∧ lesson_id l2 = "l2"
    ∧ lesson_url l1 = Demo.course_A +:+ "#/lessons/" +:+ "l1"
    ∧ lesson_url l2 = Demo.course_A +:+ "#/lessons/" +:+ "l2"
    ∧ title l1 = "First" ∧ title l2 = "Second".
Proof.
  intros soup.
  pose proof (get_lesson_links_spec soup Demo.course_A) as H.
  assert (Hf : filter (λ t, tag_name t = "a"
                  ∧ tag_attrs t !! "data-link" = Some "lesson-link-item"
                  ∧ Py.startswith (tag_get t "href") "#/lessons/" = true)
                 soup
               = [Demo.nav "#/lessons/l1" "First";
                  Demo.nav "#/lessons/l2" ("Second" +:+ String LF "2 of 2")])
    by (vm_compute; reflexivity).
  rewrite Hf in H. clear Hf.
  destruct (get_lesson_links soup Demo.course_A) as [|l1 [|l2 [|l3 ls]]];
    [inversion H|inversion H as [|? ? ? ? _ H']; inversion H'|
    |inversion H as [|? ? ? ? _ H']; inversion H' as [|? ? ? ? _ H''];
     inversion H''].
  exists l1, l2. split; [reflexivity|].
  apply Forall2_cons_1 in H as [(r1 & Hh1 & Hid1 & _ & Hu1 & Ht1) H].
  apply Forall2_cons_1 in H as [(r2 & Hh2 & Hid2 & _ & Hu2 & Ht2) _].
  vm_compute in Hh1. injection Hh1 as <-.
  vm_compute in Hh2. injection Hh2 as <-.
  rewrite Hu1, Hu2, (Hid1 eq_refl), (Hid2 eq_refl), Ht1, Ht2.
  split_and!; reflexivity.
Defined.

(** ** The similar-course test *)

(** C9, the claim as stated fails: the test reads the network location,
    which holds the user information and the port next to the host.  Here
    the string stands in the user information; the host is [example.net]. *)
Lemma is_similar_page_userinfo :
  let u := "http://rise.articulate.com@example.net/share/x" in
  @is_similar_page Demo.collaborators u = Ok true
  ∧ ∃ p, @UrlParse.urlparse Demo.collaborators u = Ok p
         ∧ UrlParse.netloc p = "rise.articulate.com@example.net"
         ∧ UrlParse.host_component (UrlParse.netloc p) = "example.net"
         ∧ Py.contains (UrlParse.host_component (UrlParse.netloc p))
                       "rise.articulate.com" = false.
Proof.
  split; [by vm_compute|].
  eexists. split; [by vm_compute|]. by vm_compute.
Qed.

Section is_similar_page_facts.
Context {env : Collaborators}.

(** C9, amended.  [is_similar_page u] returns true if and only if
    [urlparse] accepts [u], the string rise.articulate.com occurs in the
    network location of [u] (user information, host and port together) and
    /share/ occurs in its path.  So URLs on look-alike hosts, and URLs with
    /share/ at any place of the path, count as similar courses. *)
Theorem is_similar_page_spec (u : string) :
  (is_similar_page u = Ok true ↔
     ∃ p, UrlParse.urlparse u = Ok p
          ∧ (∃ a b, UrlParse.netloc p = a +:+ "rise.articulate.com" +:+ b)
          ∧ (∃ a b, UrlParse.path p = a +:+ "/share/" +:+ b))
  ∧ is_similar_page "https://rise.articulate.com.example.net/share/x"
    = Ok true
  ∧ is_similar_page "https://evil-rise.articulate.com/share/x" = Ok true
  ∧ is_similar_page "https://rise.articulate.com/a/b/share/x" = Ok true.
Proof.
  split; [|by vm_compute].
  unfold is_similar_page.
  destruct (UrlParse.urlparse u) as [p|e].
  - destruct (Py.contains (UrlParse.netloc p) _) eqn:En,
      (Py.contains (UrlParse.path p) _) eqn:Ep; cbn [andb]; split;
      try done.
    + intros _. exists p. split; [done|].
      split; by apply PyFacts.contains_spec.
    + intros (p' & [= <-] & _ & Hp).
      apply PyFacts.contains_spec in Hp. congruence.
    + intros (p' & [= <-] & Hn & _).
      apply PyFacts.contains_spec in Hn. congruence.
    + intros (p' & [= <-] & Hn & _).
      apply PyFacts.contains_spec in Hn. congruence.
  - split; [done|]. by intros (p' & ? & _).
Qed.

End is_similar_page_facts.

(** ** The traversal: guard, depth and failures *)

Section traversal_facts.
Context {env : Collaborators}.

Lemma already_listed_spec (rs : list DiscoveredLink) (d : DiscoveredLink) :
  already_listed rs d = true ↔ display d ∈ displays rs.
Proof.
  unfold already_listed, displays.
  induction rs as [|r rs IH]; cbn [existsb fmap list_fmap].
  - split; [done|]. by intros ?%elem_of_nil.
  - rewrite orb_true_iff, IH, bool_decide_eq_true, elem_of_cons.
    split; (intros [?|?]; [by left|by right]).
Qed.

Lemma add_result_listed (rs : list DiscoveredLink) (d : DiscoveredLink) :
  display d ∈ displays rs → add_result rs d = rs.
Proof.
  intros Hin. apply already_listed_spec in Hin.
  unfold add_result. by rewrite Hin.
Qed.

Lemma add_result_fresh (rs : list DiscoveredLink) (d : DiscoveredLink) :
  display d ∉ displays rs → add_result rs d = rs ++ [d].
Proof.
  intros Hin. unfold add_result.
  destruct (already_listed rs d) eqn:E; [|done].
  by apply already_listed_spec in E.
Qed.

Lemma add_result_nodup (rs : list DiscoveredLink) (d : DiscoveredLink) :
  NoDup (displays rs) → NoDup (displays (add_result rs d)).
Proof.
  intros Hnd. destruct (decide (display d ∈ displays rs)) as [Hin|Hin].
  - by rewrite add_result_listed.
  - rewrite add_result_fresh by done. unfold displays in *.
    rewrite fmap_app. apply NoDup_app. split_and!; [done| |].
    + intros x Hx [->|[]%elem_of_nil]%elem_of_cons. done.
    + apply NoDup_singleton.
Qed.

Lemma add_result_prefix (rs : list DiscoveredLink) (d : DiscoveredLink) :
  rs `prefix_of` add_result rs d.
Proof.
  unfold add_result. destruct (negb _); [|done]. by apply prefix_app_r.
Qed.

(** *** [grows] is a preorder that every step respects *)

Global Instance grows_refl : Reflexive grows.
Proof. intros s. by split. Qed.

Global Instance grows_trans : Transitive grows.
Proof.
  intros s1 s2 s3 [Hv1 Hr1 Hn1] [Hv2 Hr2 Hn2]. split.
  - set_solver.
  - by etrans.
  - auto.
Qed.

Section respects.
Context (R : relation Scanner) `{!PreOrder R}.

Lemma respects_ret {A} (a : A) : respects R (ret a).
Proof. intros s. reflexivity. Qed.

Lemma respects_lift {A} (r : result A) : respects R (lift r).
Proof. intros s. reflexivity. Qed.

Lemma respects_bind {A B} (m : M A) (f : A → M B) :
  respects R m → (∀ a, respects R (f a)) → respects R (bind m f).
Proof.
  intros Hm Hf s. unfold bind. specialize (Hm s).
  destruct (m s) as [s1 [a|e]]; [|exact Hm].
  etrans; [exact Hm|apply Hf].
Qed.

Lemma respects_for_each {A B} (f : B → A → M B) (l : list A) :
  (∀ acc x, respects R (f acc x)) → ∀ acc, respects R (for_each f acc l).
Proof.
  intros Hf. induction l as [|x l IH]; intros acc; cbn [for_each].
  - apply respects_ret.
  - apply respects_bind; [apply Hf|apply IH].
Qed.

(** The two steps that touch the scanner. *)
Hypothesis respects_load : ∀ u, respects R (load u).
Hypothesis respects_append_result : ∀ d, respects R (append_result d).

Lemma respects_scan_url (depth max_depth : Z) (ext : gset string)
    (d : DiscoveredLink) : respects R (scan_url depth max_depth ext d).
Proof.
  apply respects_bind; [apply respects_append_result|]. intros _.
  apply respects_bind; [apply respects_lift|]. intros b. apply respects_ret.
Qed.

Lemma respects_scan_lesson (depth max_depth : Z) (ext : gset string)
    (l : LessonLink) : respects R (scan_lesson depth max_depth ext l).
Proof.
  apply respects_bind; [apply respects_load|]. intros soup.
  apply respects_for_each. apply respects_scan_url.
Qed.

Lemma respects_scan_lessons (course_url base_url : string)
    (depth max_depth : Z) :
  respects R (scan_lessons course_url base_url depth max_depth).
Proof.
  apply respects_bind; [apply respects_load|]. intros soup.
  apply respects_for_each. apply respects_scan_lesson.
Qed.

End respects.

Global Instance same_visited_preorder : PreOrder same_visited.
Proof.
  split; [by intros s|]. intros s1 s2 s3 H12 H23.
  unfold same_visited in *. congruence.
Qed.

Lemma steady_scan_lessons (course_url base_url : string)
    (depth max_depth : Z) :
  respects grows (scan_lessons course_url base_url depth max_depth).
Proof.
  apply respects_scan_lessons; [split; apply _| |].
  - intros u s. unfold load. destruct (driver_get (driver s) u) as [w r].
    by split.
  - intros d s. split; cbn.
    + done.
    + apply add_result_prefix.
    + apply add_result_nodup.
Qed.

Lemma scan_lessons_same_visited (course_url base_url : string)
    (depth max_depth : Z) :
  respects same_visited (scan_lessons course_url base_url depth max_depth).
Proof.
  apply respects_scan_lessons; [apply _| |].
  - intros u s. unfold load. by destruct (driver_get (driver s) u) as [w r].
  - by intros d s.
Qed.

Lemma grows_mark_visited (b : string) (s : Scanner) :
  grows s (mark_visited b s).
Proof. split; cbn; [set_solver|done|done]. Qed.

Lemma scan_each_grows (rec : string → Scanner → option (Scanner * list Call))
    (d' : Z) :
  (∀ c s s' calls, rec c s = Some (s', calls) → grows s s') →
  ∀ courses s s' calls,
    scan_each rec d' courses s = Some (s', calls) → grows s s'.
Proof.
  intros Hrec. induction courses as [|c courses IH]; intros s s' calls;
    cbn [scan_each].
  - by intros [= <- <-].
  - destruct (rec c s) as [[s1 calls1]|] eqn:E1; [|done].
    destruct (scan_each rec d' courses s1) as [[s2 calls2]|] eqn:E2; [|done].
    intros [= <- <-]. etrans; [by eapply Hrec|by eapply IH].
Qed.

(** A scan leaves the scanner grown and the base URL of its course marked. *)
Lemma scan_course_fuel_grows (fuel : nat) :
  ∀ course_url depth max_depth s s' calls,
    scan_course_fuel fuel course_url depth max_depth s = Some (s', calls) →
    grows s s' ∧ get_base_url course_url ∈ visited_pages s'.
Proof.
  induction fuel as [|fuel IHf]; intros course_url depth max_depth s s' calls;
    cbn [scan_course_fuel]; [done|].
  case_bool_decide as Hv; [by intros [= <- <-]|].
  pose proof (steady_scan_lessons course_url (get_base_url course_url)
                depth max_depth
                (mark_visited (get_base_url course_url) s)) as Hg.
  destruct (scan_lessons _ _ _ _ _) as [s1 [ext|e]]; cbn [fst] in Hg.
  - assert (grows s s1) as Hs1
      by (etrans; [apply grows_mark_visited|exact Hg]).
    assert (get_base_url course_url ∈ visited_pages s1) as Hb
      by (apply Hg; cbn; apply elem_of_union_l; by apply elem_of_singleton).
    destruct (_ && _).
    + intros Hrec.
      assert (grows s1 s') as Hs'.
      { eapply scan_each_grows; [|exact Hrec].
        intros c t t' cs Hc. by apply IHf in Hc as [? _]. }
      split; [by etrans|]. by apply Hs'.
    + by intros [= <- <-].
  - intros [= <- <-]. split.
    + etrans; [apply grows_mark_visited|exact Hg].
    + apply Hg. cbn. apply elem_of_union_l. by apply elem_of_singleton.
Qed.

(** *** The scan returns *)

Lemma scan_each_total (rec : string → Scanner → option (Scanner * list Call))
    (d' : Z) :
  (∀ c s, is_Some (rec c s)) → ∀ courses s, is_Some (scan_each rec d' courses s).
Proof.
  intros Hrec. induction courses as [|c courses IH]; intros s;
    cbn [scan_each]; [done|].
  destruct (Hrec c s) as [[s1 calls1] ->].
  destruct (IH s1) as [[s2 calls2] ->]. done.
Qed.

Lemma scan_course_fuel_total (fuel : nat) :
  ∀ course_url depth max_depth s,
    (Z.to_nat (max_depth - depth) < fuel)%nat →
    is_Some (scan_course_fuel fuel course_url depth max_depth s).
Proof.
  induction fuel as [|fuel IH]; intros course_url depth max_depth s Hfuel;
    [lia|].
  cbn [scan_course_fuel]. case_bool_decide; [done|].
  destruct (scan_lessons _ _ _ _ _) as [s1 [ext|e]]; [|done].
  destruct (bool_decide _); cbn [andb]; [|done].
  destruct (Z.ltb_spec depth max_depth); [|done].
  apply scan_each_total. intros c t. apply IH. lia.
Qed.

Lemma scan_course_total (course_url : string) (depth max_depth : Z)
    (s : Scanner) : is_Some (scan_course course_url depth max_depth s).
Proof. apply scan_course_fuel_total. lia. Qed.

(** More fuel does not change what a scan returns. *)
Lemma scan_each_ext (rec rec' : string → Scanner → option (Scanner * list Call))
    (d' : Z) :
  (∀ c s r, rec c s = Some r → rec' c s = Some r) →
  ∀ courses s r,
    scan_each rec d' courses s = Some r → scan_each rec' d' courses s = Some r.
Proof.
  intros Hrec. induction courses as [|c courses IH]; intros s r;
    cbn [scan_each]; [done|].
  destruct (rec c s) as [[s1 calls1]|] eqn:E1; [|done].
  rewrite (Hrec _ _ _ E1).
  destruct (scan_each rec d' courses s1) as [[s2 calls2]|] eqn:E2; [|done].
  by rewrite (IH _ _ E2).
Qed.

Lemma scan_course_fuel_mono (fuel : nat) :
  ∀ fuel' course_url depth max_depth s r,
    (fuel ≤ fuel')%nat →
    scan_course_fuel fuel course_url depth max_depth s = Some r →
    scan_course_fuel fuel' course_url depth max_depth s = Some r.
Proof.
  induction fuel as [|fuel IHf];
    intros fuel' course_url depth max_depth s r Hle; [done|].
  destruct fuel' as [|fuel']; [lia|]. cbn [scan_course_fuel].
  case_bool_decide; [done|].
  destruct (scan_lessons _ _ _ _ _) as [s1 [ext|e]]; [|done].
  destruct (_ && _); [|done].
  apply scan_each_ext. intros c t r'. apply IHf. lia.
Qed.

End traversal_facts.

Section scan_course_facts.
Context {env : Collaborators}.

Lemma before_first_app (c : ascii) (b f : string) :
  Py.has_char c b = false → Py.before_first c (b +:+ String c f) = b.
Proof.
  induction b as [|a b IH].
  - intros _. change ("" +:+ String c f) with (String c f).
    cbn [Py.before_first]. by rewrite bool_decide_eq_true_2.
  - change (String a b +:+ String c f) with (String a (b +:+ String c f)).
    cbn [Py.has_char Py.before_first].
    intros [Ha Hb]%orb_false_iff. rewrite Ha. by rewrite IH.
Qed.

Lemma has_char_app (c : ascii) (b f : string) :
  Py.has_char c (b +:+ String c f) = true.
Proof.
  induction b as [|a b IH].
  - change ("" +:+ String c f) with (String c f).
    cbn [Py.has_char]. by rewrite bool_decide_eq_true_2.
  - change (String a b +:+ String c f) with (String a (b +:+ String c f)).
    cbn [Py.has_char]. rewrite IH. apply orb_true_r.
Qed.

(** The base URL is the URL up to its first [#]. *)
Lemma get_base_url_spec (b f : string) :
  Py.has_char "#" b = false →
  get_base_url b = b ∧ get_base_url (b +:+ String "#" f) = b.
Proof.
  intros Hb. unfold get_base_url. rewrite Hb, has_char_app.
  by rewrite before_first_app.
Qed.

(** *** The depth of the recursive invocations *)

Lemma scan_each_calls (rec : string → Scanner → option (Scanner * list Call))
    (d' : Z) (P : Call → Prop) :
  (∀ c s s' calls, rec c s = Some (s', calls) → Forall P calls) →
  (∀ c, P (c, d')) →
  ∀ courses s s' calls,
    scan_each rec d' courses s = Some (s', calls) → Forall P calls.
Proof.
  intros Hrec Hd. induction courses as [|c courses IH]; intros s s' calls;
    cbn [scan_each].
  - intros [= <- <-]. constructor.
  - destruct (rec c s) as [[s1 calls1]|] eqn:E1; [|done].
    destruct (scan_each rec d' courses s1) as [[s2 calls2]|] eqn:E2; [|done].
    intros [= <- <-]. constructor; [apply Hd|].
    apply Forall_app. split; [by eapply Hrec|by eapply IH].
Qed.

Lemma scan_course_fuel_depth (fuel : nat) :
  ∀ course_url depth max_depth s s' calls,
    scan_course_fuel fuel course_url depth max_depth s = Some (s', calls) →
    Forall (λ c : Call, depth + 1 ≤ c.2 ≤ max_depth) calls.
Proof.
  induction fuel as [|fuel IHf]; intros course_url depth max_depth s s' calls;
    cbn [scan_course_fuel]; [done|].
  case_bool_decide; [intros [= <- <-]; constructor|].
  destruct (scan_lessons _ _ _ _ _) as [s1 [ext|e]];
    [|intros [= <- <-]; constructor].
  destruct (bool_decide _); cbn [andb]; [|intros [= <- <-]; constructor].
  destruct (Z.ltb_spec depth max_depth); [|intros [= <- <-]; constructor].
  apply scan_each_calls.
  - intros c t t' cs Hc. apply IHf in Hc.
    eapply Forall_impl; [exact Hc|]. cbn. lia.
  - intros c. cbn. lia.
Qed.

(** At or beyond the maximal depth the loops collect no candidate. *)
Lemma scan_urls_no_candidates (depth max_depth : Z) :
  max_depth ≤ depth →
  ∀ urls ext s s' ext',
    for_each (scan_url depth max_depth) ext urls s = (s', Ok ext') →
    ext' = ext.
Proof.
  intros Hd. induction urls as [|d urls IH]; intros ext s s' ext';
    cbn [for_each].
  - by intros [= <- <-].
  - unfold bind at 1, scan_url at 1, bind at 1, append_result at 1.
    unfold collect_candidate, bind, lift, ret.
    destruct (is_similar_page (url d)) as [b|e]; [|done].
    replace (depth <? max_depth) with false by (symmetry; apply Z.ltb_ge; lia).
    rewrite andb_false_r. apply IH.
Qed.

Lemma scan_lesson_loop_no_candidates (depth max_depth : Z) :
  max_depth ≤ depth →
  ∀ lessons acc s s' ext,
    for_each (scan_lesson depth max_depth) acc lessons s = (s', Ok ext) →
    ext = acc.
Proof.
  intros Hd. induction lessons as [|l lessons IH]; intros acc s s' ext;
    cbn [for_each].
  - by intros [= <- <-].
  - unfold bind at 1, scan_lesson at 1, bind at 1.
    destruct (load (lesson_url l) s) as [s1 [lsoup|e]]; [|done].
    destruct (for_each (scan_url depth max_depth) acc _ s1)
      as [s2 [acc'|e]] eqn:E; [|done].
    apply scan_urls_no_candidates in E as ->; [|done]. apply IH.
Qed.

Lemma scan_lessons_no_candidates (course_url base_url : string)
    (depth max_depth : Z) (s s' : Scanner) (ext : gset string) :
  max_depth ≤ depth →
  scan_lessons course_url base_url depth max_depth s = (s', Ok ext) →
  ext = ∅.
Proof.
  intros Hd. unfold scan_lessons, bind at 1.
  destruct (load course_url s) as [s0 [soup|e]]; [|done].
  by apply scan_lesson_loop_no_candidates.
Qed.

(** C1.  When the base URL of [course_url] is in the visited set,
    [scan_course] returns at once: the browser, the visited set and the
    result list stay as they are and no recursive invocation is made.  A
    scan marks the base URL of its course, so a second scan of a URL with
    the same base URL, at any depth, changes nothing. *)
Theorem scan_course_visited_noop (course_url : string) (depth max_depth : Z)
    (s : Scanner) :
  (get_base_url course_url ∈ visited_pages s →
     scan_course course_url depth max_depth s = Some (s, []))
  ∧ ∃ s' calls,
      scan_course course_url depth max_depth s = Some (s', calls)
      ∧ ∀ again depth' max_depth',
          get_base_url again = get_base_url course_url →
          scan_course again depth' max_depth' s' = Some (s', []).
Proof.
  assert (Hnoop : ∀ c d m t, get_base_url c ∈ visited_pages t →
                             scan_course c d m t = Some (t, [])).
  { intros c d m t Hv. unfold scan_course. cbn [scan_course_fuel].
    by rewrite bool_decide_eq_true_2. }
  split; [apply Hnoop|].
  destruct (scan_course_total course_url depth max_depth s)
    as [[s' calls] Hrun].
  exists s', calls. split; [done|]. intros again depth' max_depth' Hbase.
  apply Hnoop. rewrite Hbase.
  by apply scan_course_fuel_grows in Hrun as [_ ?].
Qed.

(** C2.  A scan returns, and every recursive invocation it makes, nested
    ones included, runs at a depth between [depth + 1] and [max_depth].
    A course scanned at [depth = max_depth] or beyond collects no candidate
    for recursion and makes no recursive invocation. *)
Theorem scan_course_depth_bound (course_url : string) (depth max_depth : Z)
    (s : Scanner) :
  ∃ s' calls,
    scan_course course_url depth max_depth s = Some (s', calls)
    ∧ Forall (λ c : Call, depth + 1 ≤ c.2 ≤ max_depth) calls
    ∧ (max_depth ≤ depth →
         calls = []
         ∧ ∀ base_url s0 s1 external_courses,
             scan_lessons course_url base_url depth max_depth s0
               = (s1, Ok external_courses) →
             external_courses = ∅).
Proof.
  destruct (scan_course_total course_url depth max_depth s)
    as [[s' calls] Hrun].
  exists s', calls. split; [done|].
  pose proof (scan_course_fuel_depth _ _ _ _ _ _ _ Hrun) as Hcalls.
  split; [done|]. intros Hd. split.
  - destruct calls as [|c calls]; [done|].
    apply Forall_cons in Hcalls as [Hc _]. lia.
  - intros base_url s0 s1 ext. by apply scan_lessons_no_candidates.
Qed.

(** A landing page that fails to render makes the [try] block raise with
    nothing but the browser changed. *)
Lemma scan_lessons_landing_raises (course_url base_url : string)
    (depth max_depth : Z) (s : Scanner) (w : World) (e : exn) :
  driver_get (driver s) course_url = (w, Raise e) →
  scan_lessons course_url base_url depth max_depth s
  = ({| driver := w; visited_pages := visited_pages s;
        all_results := all_results s |}, Raise e).
Proof. intros Hget. unfold scan_lessons, bind, load. by rewrite Hget. Qed.

(** A lesson page that fails to render ends the loop over the lessons: the
    lessons behind it are not loaded. *)
Lemma scan_lesson_raises_stops (depth max_depth : Z) (acc : gset string)
    (l : LessonLink) (rest : list LessonLink) (s : Scanner) (w : World)
    (e : exn) :
  driver_get (driver s) (lesson_url l) = (w, Raise e) →
  for_each (scan_lesson depth max_depth) acc (l :: rest) s
  = ({| driver := w; visited_pages := visited_pages s;
        all_results := all_results s |}, Raise e).
Proof.
  intros Hget. cbn [for_each]. unfold bind at 1, scan_lesson, bind, load.
  by rewrite Hget.
Qed.

(** C8.  When the [try] block of a scan raises, at the landing page, at a
    lesson page or in between, [scan_course] returns all the same; it makes
    no recursive invocation; the scanner is left as the block had it when
    it raised, with the base URL marked and the results found so far.  A
    loop over sibling courses goes on from that scanner. *)
Theorem scan_course_failure_contained (course_url : string)
    (depth max_depth : Z) (s s' : Scanner) (e : exn) :
  get_base_url course_url ∉ visited_pages s →
  scan_lessons course_url (get_base_url course_url) depth max_depth
    (mark_visited (get_base_url course_url) s) = (s', Raise e) →
  scan_course course_url depth max_depth s = Some (s', [])
  ∧ visited_pages s' = {[get_base_url course_url]} ∪ visited_pages s
  ∧ all_results s `prefix_of` all_results s'
  ∧ ∀ fuel siblings,
      scan_each (λ c, scan_course_fuel (S fuel) c depth max_depth) depth
                (course_url :: siblings) s
      = match scan_each (λ c, scan_course_fuel (S fuel) c depth max_depth)
                        depth siblings s' with
        | Some (s2, calls2) => Some (s2, (course_url, depth) :: calls2)
        | None => None
        end.
Proof.
  intros Hfresh Hraise.
  assert (Hone : ∀ fuel, scan_course_fuel (S fuel) course_url depth
                            max_depth s = Some (s', [])).
  { intros fuel. cbn [scan_course_fuel].
    rewrite bool_decide_eq_false_2 by done. by rewrite Hraise. }
  split; [apply Hone|].
  split; [|split].
  - pose proof (scan_lessons_same_visited course_url
                  (get_base_url course_url) depth max_depth
                  (mark_visited (get_base_url course_url) s)) as Hv.
    by rewrite Hraise in Hv.
  - pose proof (steady_scan_lessons course_url (get_base_url course_url)
                  depth max_depth
                  (mark_visited (get_base_url course_url) s)) as Hg.
    rewrite Hraise in Hg. apply Hg.
  - intros fuel siblings. cbn [scan_each]. rewrite Hone.
    by destruct (scan_each _ depth siblings s') as [[s2 calls2]|].
Qed.

End scan_course_facts.

(** *** The demo site *)

(** The whole walk from course A at depth 0 with maximal depth 2: the
    pages loaded (latest first), the courses marked, the display strings
    found and the recursive invocations.  Course B is entered once; course C
    fails to render and course A is met again, both at depth 2. *)
Example demo_walk :
  ∃ s', scan_course (env := Demo.collaborators) Demo.course_A 0 2
                    (init (env := Demo.collaborators) [])
        = Some (s', [(Demo.course_B, 1); (Demo.course_C, 2);
                     (Demo.course_A, 2)])
        ∧ driver s' = [ Demo.course_C;
                        "https://rise.articulate.com/share/B#/lessons/m1";
                        Demo.course_B;
                        "https://rise.articulate.com/share/A#/lessons/l2";
                        "https://rise.articulate.com/share/A#/lessons/l1";
                        Demo.course_A ]
        ∧ visited_pages s' = {[Demo.course_A; Demo.course_B; Demo.course_C]}
        ∧ displays (all_results s')
          = [ "https://example.com/ok is in 'Lesson A'";
              "https://rise.articulate.com/share/B is in 'Lesson A'";
              "https://example.com/ok is in 'Lesson B'";
              "https://rise.articulate.com/share/A is in 'Lesson M'";
              "https://rise.articulate.com/share/C is in 'Lesson M'" ].
Proof.
  eexists. split; [vm_compute; reflexivity|].
  split_and!; vm_compute; reflexivity.
Qed.

(** Course A is marked; a scan of one of its lesson URLs changes nothing. *)
Lemma scan_course_visited_noop_witness :
  let s := mark_visited (env := Demo.collaborators) Demo.course_A
             (init (env := Demo.collaborators) []) in
  scan_course (env := Demo.collaborators)
              (Demo.course_A +:+ "#/lessons/l1") 1 2 s = Some (s, []).
Proof.
  intros s.
  apply (proj1 (scan_course_visited_noop (env := Demo.collaborators)
                  (Demo.course_A +:+ "#/lessons/l1") 1 2 s)).
  vm_compute. reflexivity.
Defined.

(** Course A scanned at the maximal depth: it links to course B, and no
    recursive invocation is made. *)
Lemma scan_course_depth_bound_witness :
  ∃ s', scan_course (env := Demo.collaborators) Demo.course_A 2 2
                    (init (env := Demo.collaborators) []) = Some (s', []).
Proof.
  destruct (scan_course_depth_bound (env := Demo.collaborators)
              Demo.course_A 2 2 (init (env := Demo.collaborators) []))
    as (s' & calls & Hrun & _ & Hmax).
  destruct (Hmax ltac:(lia)) as [Hcalls _].
  exists s'. rewrite <- Hcalls. exact Hrun.
Defined.

(** The landing page of course C does not render. *)
Lemma scan_course_failure_contained_witness :
  scan_course (env := Demo.collaborators) Demo.course_C 0 2
              (init (env := Demo.collaborators) [])
  = Some (Demo.scanner [Demo.course_C] {[Demo.course_C]} [], []).
Proof.
  apply (scan_course_failure_contained (env := Demo.collaborators)
           Demo.course_C 0 2 (init (env := Demo.collaborators) [])
           (Demo.scanner [Demo.course_C] {[Demo.course_C]} [])
           (WebDriverException "net::ERR_NAME_NOT_RESOLVED")).
  - vm_compute. intros Hin. discriminate Hin.
  - vm_compute. reflexivity.
Defined.

(** ** Accumulation of the discovered links *)


(** What a run of the first statement of the loop adds to the list: a part
    of the batch, in the order of the batch, with display strings that are
    new and pairwise distinct; every display string of the batch is listed
    afterwards. *)
Lemma accumulate_kept (uds : list DiscoveredLink) :
  ∀ rs, ∃ kept,
    foldl add_result rs uds = rs ++ kept
    ∧ kept `sublist_of` uds
    ∧ NoDup (displays kept)
    ∧ (∀ k, k ∈ kept → display k ∉ displays rs)
    ∧ (∀ d, d ∈ uds → display d ∈ displays (rs ++ kept)).
Proof.
  induction uds as [|d uds IH]; intros rs; cbn [foldl].
  - exists []. rewrite app_nil_r. split_and!; try done.
    + constructor.
    + by intros k ?%elem_of_nil.
    + by intros k ?%elem_of_nil.
  - destruct (decide (display d ∈ displays rs)) as [Hin|Hin].
    + rewrite add_result_listed by done.
      destruct (IH rs) as (kept & -> & Hsub & Hnd & Hnew & Hall).
      exists kept. split_and!; try done.
      * by apply sublist_cons.
      * intros d' [->|Hd']%elem_of_cons; [|by apply Hall].
        unfold displays. rewrite fmap_app. apply elem_of_app. by left.
    + rewrite add_result_fresh by done.
      destruct (IH (rs ++ [d])) as (kept & -> & Hsub & Hnd & Hnew & Hall).
      exists (d :: kept). rewrite <- app_assoc. cbn [app].
      assert (Hfresh : ∀ k, k ∈ kept → (display k ∉ displays rs)
                                      ∧ (display k ≠ display d)).
      { intros k Hk. specialize (Hnew k Hk). unfold displays in Hnew.
        rewrite fmap_app, not_elem_of_app in Hnew. destruct Hnew as [? Hd].
        split; [done|]. intros Heq. apply Hd. rewrite Heq. by left. }
      split_and!; try done.
      * by apply sublist_skip.
      * unfold displays. rewrite fmap_cons. apply NoDup_cons. split; [|done].
        intros (k & Hk & Hkin)%list_elem_of_fmap.
        by destruct (Hfresh k Hkin) as [_ []].
      * intros k [->|Hk]%elem_of_cons; [done|]. by apply Hfresh.
      * intros d' [->|Hd']%elem_of_cons.
        -- unfold displays. rewrite fmap_app, fmap_cons.
           apply elem_of_app. right. by left.
        -- specialize (Hall d' Hd'). by rewrite <- app_assoc in Hall.
Qed.

(** The loop over the links of a page runs [add_result] over the links it
    reaches: all of them when it returns, those up to the raise otherwise. *)
Lemma scan_urls_results {env : Collaborators} (depth max_depth : Z) :
  ∀ urls ext s s' r,
    for_each (scan_url depth max_depth) ext urls s = (s', r) →
    ∃ reached,
      reached `prefix_of` urls
      ∧ all_results s' = foldl add_result (all_results s) reached
      ∧ (∀ ext', r = Ok ext' → reached = urls).
Proof.
  induction urls as [|d urls IH]; intros ext s s' r; cbn [for_each].
  - intros [= <- <-]. by exists [].
  - unfold bind at 1, scan_url at 1, bind at 1, append_result at 1.
    unfold collect_candidate, bind, lift, ret.
    destruct (is_similar_page (url d)) as [b|e].
    + intros Hrest. apply IH in Hrest as (reached & Hpre & Hres & Hok).
      exists (d :: reached). split_and!.
      * by apply prefix_cons.
      * exact Hres.
      * intros ext' Hr. f_equal. by eapply Hok.
    + intros [= <- <-]. exists [d]. split_and!; [|done|done].
      by apply prefix_cons, prefix_nil.
Qed.

Section accumulation_facts.
Context {env : Collaborators}.

(** *** The result list after the loops *)











(** Two entries with one display string: the later one is dropped, whatever
    stands in between. *)
Lemma later_twin_dropped (d1 d2 : DiscoveredLink)
    (rs between : list DiscoveredLink) :
  display d1 = display d2 →
  foldl add_result rs (d1 :: between ++ [d2])
  = foldl add_result rs (d1 :: between).
Proof.
  intros Hsame. rewrite app_comm_cons, foldl_app.
  change (foldl add_result (foldl add_result rs (d1 :: between)) [d2])
    with (add_result (foldl add_result rs (d1 :: between)) d2).
  apply add_result_listed.
  destruct (accumulate_kept (d1 :: between) rs)
    as (kept & -> & _ & _ & _ & Hall).
  rewrite <- Hsame. apply Hall. by left.
Qed.


End accumulation_facts.



(** ** The verification of the accumulated links *)

Module DictFacts.
Import Dict.

Lemma get_set {V} (d : t V) (k : string) (v : V) (k' : string) :
  get (set d k v) k' = if decide (k = k') then Some v else get d k'.
Proof.
  induction d as [|[k0 v0] d IH]; cbn [set get].
  - case_bool_decide; case_decide; done.
  - destruct (decide (k0 = k)) as [->|Hne].
    + rewrite bool_decide_eq_true_2 by done. cbn [get].
      case_bool_decide; case_decide; done.
    + rewrite bool_decide_eq_false_2 by done. cbn [get]. rewrite IH.
      case_bool_decide; case_decide; congruence.
Qed.

Lemma get_is_Some {V} (d : t V) (k : string) :
  is_Some (get d k) ↔ k ∈ keys d.
Proof.
  unfold keys. induction d as [|[k0 v0] d IH]; cbn [get fmap list_fmap fst].
  - rewrite elem_of_nil. split; [by intros [? ?]|done].
  - rewrite elem_of_cons. case_bool_decide as Hk.
    + split; [by left|by eexists].
    + rewrite IH. split; [by right|]. by intros [->|?].
Qed.

Lemma mem_spec {V} (d : t V) (k : string) : mem d k = true ↔ k ∈ keys d.
Proof. unfold mem. by rewrite bool_decide_eq_true, get_is_Some. Qed.

Lemma keys_set {V} (d : t V) (k : string) (v : V) :
  keys (set d k v) = if decide (k ∈ keys d) then keys d else keys d ++ [k].
Proof.
  unfold keys. induction d as [|[k0 v0] d IH]; cbn [set fmap list_fmap fst].
  - rewrite decide_False; [done|]. by intros ?%elem_of_nil.
  - destruct (decide (k0 = k)) as [->|Hne].
    + rewrite bool_decide_eq_true_2 by done.
      rewrite decide_True by (by left). done.
    + rewrite bool_decide_eq_false_2 by done. cbn [fmap list_fmap fst].
      rewrite IH. destruct (decide (k ∈ d.*1)) as [Hin|Hin].
      * rewrite decide_True by (by right). done.
      * rewrite decide_False; [done|]. intros [->|?]%elem_of_cons; done.
Qed.

End DictFacts.

Section verify_all_urls_facts.
Context {env : Collaborators}.

Lemma keys_group_step (d : Dict.t (list DiscoveredLink))
    (r : DiscoveredLink) :
  Dict.keys (group_step d r)
  = if decide (url r ∈ Dict.keys d) then Dict.keys d
    else Dict.keys d ++ [url r].
Proof.
  unfold group_step. destruct (Dict.mem d (url r)) eqn:Em; cbn [negb].
  - apply DictFacts.mem_spec in Em.
    rewrite DictFacts.keys_set. by rewrite !decide_True by done.
  - assert (url r ∉ Dict.keys d) as Hk.
    { intros Hin%DictFacts.mem_spec. congruence. }
    rewrite !DictFacts.keys_set. rewrite (decide_False (P := _ ∈ Dict.keys d))
      by done.
    rewrite decide_True; [done|]. apply elem_of_app. right. by left.
Qed.

Lemma get_group_step (d : Dict.t (list DiscoveredLink))
    (r : DiscoveredLink) (u : string) :
  default [] (Dict.get (group_step d r) u)
  = default [] (Dict.get d u) ++ (if decide (url r = u) then [r] else []).
Proof.
  unfold group_step. rewrite DictFacts.get_set.
  destruct (Dict.mem d (url r)) eqn:Em; cbn [negb].
  - case_decide as Hu; [by subst u|]. by rewrite app_nil_r.
  - assert (Dict.get d (url r) = None) as Hnone.
    { apply eq_None_not_Some. intros Hs%DictFacts.get_is_Some.
      apply DictFacts.mem_spec in Hs. congruence. }
    rewrite !DictFacts.get_set. rewrite (decide_True (P := url r = url r))
      by done.
    case_decide as Hu; [subst u; by rewrite Hnone|]. by rewrite app_nil_r.
Qed.

(** The first loop, from any dict with distinct keys. *)
Lemma group_fold (rs : list DiscoveredLink) :
  ∀ d, NoDup (Dict.keys d) →
    NoDup (Dict.keys (foldl group_step d rs))
    ∧ (∀ u, u ∈ Dict.keys (foldl group_step d rs)
            ↔ u ∈ Dict.keys d ∨ u ∈ url <$> rs)
    ∧ (∀ u, default [] (Dict.get (foldl group_step d rs) u)
            = default [] (Dict.get d u) ++ filter (λ r, url r = u) rs).
Proof.
  induction rs as [|r rs IH]; intros d Hnd; cbn [foldl].
  - split_and!; [done| |].
    + intros u. rewrite fmap_nil, elem_of_nil. tauto.
    + intros u. by rewrite filter_nil, app_nil_r.
  - assert (NoDup (Dict.keys (group_step d r))) as Hnd'.
    { rewrite keys_group_step. case_decide as Hin; [done|].
      apply NoDup_app. split_and!; [done| |apply NoDup_singleton].
      intros x Hx ->%list_elem_of_singleton. done. }
    destruct (IH _ Hnd') as (Hn & Hk & Hg). split_and!; [done| |].
    + intros u. rewrite Hk, keys_group_step, fmap_cons, elem_of_cons.
      case_decide as Hin.
      * split; [tauto|]. intros [?|[->|?]]; tauto.
      * rewrite elem_of_app, list_elem_of_singleton. tauto.
    + intros u. rewrite Hg, get_group_step, filter_cons, <- app_assoc.
      by case_decide.
Qed.

(** The second loop, from any dict whose keys are not among the URLs. *)
Lemma collect_fold (l : list string) :
  ∀ d, NoDup (Dict.keys d ++ l) →
    Dict.keys (foldl collect_step d l) = Dict.keys d ++ l
    ∧ (∀ u, Dict.get (foldl collect_step d l) u
            = if decide (u ∈ l) then Some (verify_url u) else Dict.get d u).
Proof.
  induction l as [|k l IH]; intros d Hnd; cbn [foldl].
  - rewrite app_nil_r. split; [done|]. intros u.
    rewrite decide_False; [done|]. by intros ?%elem_of_nil.
  - assert (Dict.keys (collect_step d k) = Dict.keys d ++ [k]) as Hk.
    { unfold collect_step, future_result. rewrite DictFacts.keys_set.
      rewrite decide_False; [done|]. intros Hin.
      apply NoDup_app in Hnd as (_ & Hd & _). apply (Hd k Hin). by left. }
    destruct (IH (collect_step d k)) as [Hkeys Hget].
    { rewrite Hk, <- app_assoc. exact Hnd. }
    split; [by rewrite Hkeys, Hk, <- app_assoc|].
    intros u. rewrite Hget. unfold collect_step, future_result.
    rewrite DictFacts.get_set.
    destruct (decide (u ∈ l)) as [Hl|Hl].
    + rewrite decide_True by (by right). done.
    + destruct (decide (k = u)) as [->|Hne].
      * rewrite decide_True by (by left). done.
      * rewrite decide_False; [done|].
        intros [->|?]%elem_of_cons; done.
Qed.



End verify_all_urls_facts.



(** * Further properties of the code *)

(** ** Base URLs *)

Lemma has_char_before_first (c : ascii) (s : string) :
  Py.has_char c (Py.before_first c s) = false.
Proof.
  induction s as [|a s IH]; [done|]. cbn [Py.before_first].
  case_bool_decide as Ha; [done|]. cbn [Py.has_char].
  by rewrite bool_decide_eq_false_2, IH.
Qed.

Lemma before_first_prefix (c : ascii) (s : string) :
  ∃ rest, s = Py.before_first c s +:+ rest.
Proof.
  induction s as [|a s [rest IH]]; [by exists ""|]. cbn [Py.before_first].
  case_bool_decide.
  - by exists (String a s).
  - exists rest.
    change (String a (Py.before_first c s) +:+ rest)
      with (String a (Py.before_first c s +:+ rest)).
    by rewrite <- IH.
Qed.

Lemma get_base_url_no_fragment (u : string) :
  Py.has_char "#" (get_base_url u) = false.
Proof.
  unfold get_base_url. destruct (Py.has_char "#" u) eqn:E; [|done].
  apply has_char_before_first.
Qed.

(** X1.  The base URL carries no [#], it is the URL itself or the URL cut
    short, and taking the base URL twice changes nothing. *)
Theorem get_base_url_fragment_free (u : string) :
  Py.has_char "#" (get_base_url u) = false
  ∧ (∃ rest, u = get_base_url u +:+ rest)
  ∧ get_base_url (get_base_url u) = get_base_url u.
Proof.
  pose proof (get_base_url_no_fragment u) as Hfree.
  split_and!; [done| |].
  - unfold get_base_url. destruct (Py.has_char "#" u).
    + apply before_first_prefix.
    + exists "". clear. induction u as [|a u IH]; [done|].
      change (String a u +:+ "") with (String a (u +:+ "")). by rewrite <- IH.
  - unfold get_base_url at 1. by rewrite Hfree.
Qed.

Lemma lesson_link_url (soup : Soup) (base_url : string) (l : LessonLink) :
  l ∈ get_lesson_links soup base_url →
  lesson_url l = base_url +:+ "#/lessons/" +:+ lesson_id l.
Proof.
  unfold get_lesson_links. intros (t & _ & Ht)%list_elem_of_omap.
  unfold lesson_link_of in Ht. destruct (_ && _); [|done].
  by injection Ht as <-.
Qed.

(** X2.  The URL of every lesson that [get_lesson_links] builds from the
    base URL of a course has that base URL again: the lesson pages of a
    course fall under the course in the visited set. *)
Theorem lesson_url_base_round_trip (course_url : string) (soup : Soup)
    (l : LessonLink) :
  l ∈ get_lesson_links soup (get_base_url course_url) →
  get_base_url (lesson_url l) = get_base_url course_url.
Proof.
  intros Hl. rewrite (lesson_link_url _ _ _ Hl).
  pose proof (get_base_url_no_fragment course_url) as Hfree.
  change ("#/lessons/" +:+ lesson_id l)
    with (String "#" ("/lessons/" +:+ lesson_id l)).
  by apply get_base_url_spec.
Qed.

Lemma lesson_url_base_round_trip_witness :
  get_base_url "https://rise.articulate.com/share/A#/lessons/l2"
  = "https://rise.articulate.com/share/A".
Proof.
  apply (lesson_url_base_round_trip
           (Demo.course_A +:+ "#/lessons/l1")
           [Demo.nav "#/lessons/l1" "First"; Demo.nav "#/lessons/l2" "Second"]
           {| lesson_url := "https://rise.articulate.com/share/A#/lessons/l2";
              title := "Second"; lesson_id := "l2" |}).
  vm_compute. right. left.
Defined.

(** ** Stripped texts *)

Module StripFacts.
Import Py.

(** The string does not begin with white space. *)
Definition no_lead (s : string) : Prop :=
  match s with
  | EmptyString => True
  | String a _ => isspace a = false
  end.

(** The string neither begins nor ends with white space. *)
Definition clean (s : string) : Prop := no_lead s ∧ rstrip s = s.

Lemma rstrip_cons (a : ascii) (s : string) :
  rstrip (String a s)
  = match rstrip s with
    | EmptyString => if isspace a then EmptyString else String a EmptyString
    | String b r => String a (String b r)
    end.
Proof. done. Qed.

Lemma no_lead_lstrip (s : string) : no_lead (lstrip s).
Proof.
  induction s as [|a s IH]; [done|]. cbn [lstrip].
  by destruct (isspace a) eqn:E.
Qed.

Lemma lstrip_no_lead (s : string) : no_lead s → lstrip s = s.
Proof. destruct s as [|a s]; [done|]. cbn. by intros ->. Qed.

Lemma rstrip_idem (s : string) : rstrip (rstrip s) = rstrip s.
Proof.
  induction s as [|a s IH]; [done|]. rewrite rstrip_cons.
  destruct (rstrip s) as [|b r] eqn:E.
  - destruct (isspace a) eqn:Ea; [done|].
    rewrite rstrip_cons. cbn [rstrip]. by rewrite Ea.
  - rewrite rstrip_cons, IH. done.
Qed.

Lemma no_lead_rstrip (s : string) : no_lead s → no_lead (rstrip s).
Proof.
  destruct s as [|a s]; [done|]. cbn [no_lead]. intros Ha.
  rewrite rstrip_cons. destruct (rstrip s); [by rewrite Ha|done].
Qed.

Lemma clean_strip (s : string) : clean (strip s).
Proof.
  split.
  - apply no_lead_rstrip, no_lead_lstrip.
  - apply rstrip_idem.
Qed.

Lemma clean_fixed (s : string) : clean s → strip s = s.
Proof. intros [Hl Hr]. unfold strip. by rewrite lstrip_no_lead. Qed.

Lemma app_empty_r (s : string) : s +:+ "" = s.
Proof.
  induction s as [|a s IH]; [done|].
  change (String a s +:+ "") with (String a (s +:+ "")). by rewrite IH.
Qed.

Lemma rstrip_app (s t : string) :
  t ≠ "" → rstrip t = t → rstrip (s +:+ t) = s +:+ t.
Proof.
  intros Hne Ht. induction s as [|a s IH]; [done|].
  change (String a s +:+ t) with (String a (s +:+ t)).
  rewrite rstrip_cons, IH. destruct (s +:+ t) eqn:E; [|done].
  destruct s; [by destruct (Hne E)|discriminate E].
Qed.

Lemma clean_app (p x : string) :
  p ≠ "" → clean p → clean x → clean (p +:+ x).
Proof.
  intros Hp [Hpl Hpr] [Hxl Hxr]. destruct x as [|b x].
  - by rewrite app_empty_r.
  - split.
    + destruct p as [|a p]; [done|]. exact Hpl.
    + by apply rstrip_app.
Qed.

Lemma clean_join (l : list string) :
  Forall (λ p, p ≠ "" ∧ clean p) l → clean (join l).
Proof.
  induction 1 as [|p l [Hp Hc] _ IH]; [done|].
  cbn [join foldr]. by apply clean_app.
Qed.

Lemma clean_get_text_strip (t : Tag) : clean (get_text_strip t).
Proof.
  unfold get_text_strip. apply clean_join, Forall_forall.
  intros p [Hp (s & -> & _)%list_elem_of_fmap]%list_elem_of_filter.
  split; [done|apply clean_strip].
Qed.

Lemma has_char_lstrip (c : ascii) (s : string) :
  has_char c (lstrip s) = true → has_char c s = true.
Proof.
  induction s as [|a s IH]; [done|]. cbn [lstrip].
  destruct (isspace a); [|done]. intros Hc%IH. cbn [has_char].
  rewrite Hc. apply orb_true_r.
Qed.

Lemma has_char_rstrip (c : ascii) (s : string) :
  has_char c (rstrip s) = true → has_char c s = true.
Proof.
  induction s as [|a s IH]; [done|]. rewrite rstrip_cons.
  destruct (rstrip s) as [|b r] eqn:E.
  - destruct (isspace a); [done|]. cbn [has_char]. rewrite orb_false_r.
    by intros ->.
  - cbn [has_char] in *. intros [->|Hc]%orb_true_iff; [done|].
    rewrite IH by done. apply orb_true_r.
Qed.

Lemma has_char_strip (c : ascii) (s : string) :
  has_char c s = false → has_char c (strip s) = false.
Proof.
  intros Hs. destruct (has_char c (strip s)) eqn:E; [|done].
  apply has_char_rstrip, has_char_lstrip in E. congruence.
Qed.

End StripFacts.

(** X3.  The texts the extractor takes from a page neither begin nor end
    with white space: the text of a tag, the lesson title of a page (the
    sentinel included), the title of a navigation entry and the text of an
    extracted link.  The title of a navigation entry holds no line break. *)
Theorem extracted_texts_are_stripped :
  (∀ t, Py.strip (get_text_strip t) = get_text_strip t)
  ∧ (∀ soup, Py.strip (get_lesson_title soup) = get_lesson_title soup)
  ∧ (∀ soup base_url l, l ∈ get_lesson_links soup base_url →
       Py.strip (title l) = title l ∧ Py.has_char LF (title l) = false)
  ∧ (∀ soup lesson_title d, d ∈ extract_urls_from_page soup lesson_title →
       Py.strip (link_text d) = link_text d).
Proof.
  assert (Htext : ∀ t, Py.strip (get_text_strip t) = get_text_strip t)
    by (intros t; apply StripFacts.clean_fixed, StripFacts.clean_get_text_strip).
  split_and!; [done| | |].
  - intros soup. unfold get_lesson_title.
    destruct (find_class soup "h1" "lesson-header__title"); [apply Htext|].
    by vm_compute.
  - intros soup base_url l. unfold get_lesson_links.
    intros (t & _ & Ht)%list_elem_of_omap. unfold lesson_link_of in Ht.
    destruct (_ && _); [|done]. injection Ht as <-. cbn [title].
    destruct (Py.has_char LF (get_text_strip t)) eqn:E.
    + split.
      * apply StripFacts.clean_fixed, StripFacts.clean_strip.
      * apply StripFacts.has_char_strip, has_char_before_first.
    + split; [apply Htext|done].
  - intros soup lesson_title d. unfold extract_urls_from_page.
    intros (t & _ & Ht)%list_elem_of_omap.
    apply display_url_entry in Ht as (_ & _ & -> & _). apply Htext.
Qed.

Lemma extracted_texts_are_stripped_witness :
  title {| lesson_url := "B#/lessons/a"; title := "Intro";
           lesson_id := "a" |} = "Intro"
  ∧ Py.has_char LF "Intro" = false.
Proof.
  destruct extracted_texts_are_stripped as (_ & _ & Hnav & _).
  destruct (Hnav [Demo.nav "#/lessons/a" ("  Intro " +:+ String LF "1 of 2")]
              "B" {| lesson_url := "B#/lessons/a"; title := "Intro";
                     lesson_id := "a" |}) as [_ Hlf].
  - vm_compute. left.
  - split; [reflexivity|exact Hlf].
Defined.

(** ** The statuses of the verifier *)

Section verify_url_range.
Context {env : Collaborators}.

(** X4.  The status [verify_url] gives is one of OK, WARNING, BROKEN and
    ERROR.  It is OK for the status code 200 and for nothing else; the
    result carries the status code of the response when there was one, and
    no code exactly when the request raised. *)
Theorem verify_url_status_range (u : string) :
  status (verify_url u) ∈ ["OK"; "WARNING"; "BROKEN"; "ERROR"]
  ∧ (status (verify_url u) = "OK" ↔ ∃ f, requests_head u = Response 200 f)
  ∧ (∀ c, code (verify_url u) = Some c ↔ ∃ f, requests_head u = Response c f)
  ∧ (code (verify_url u) = None
     ↔ ∃ cls m, requests_head u = HeadRaises cls m).
Proof.
  unfold verify_url, classify.
  destruct (requests_head u) as [c f|cls m].
  - destruct (Z.eqb_spec c 200) as [->|Hc].
    + cbn [status code]. split_and!.
      * by left.
      * split; [by exists f|done].
      * intros c'. split; [intros [= <-]; by exists f|].
        by intros (f' & [= <- _]).
      * split; [done|]. by intros (? & ? & ?).
    + assert (∀ st msg,
        st ≠ "OK" → st ∈ ["OK"; "WARNING"; "BROKEN"; "ERROR"] →
        let r := {| status := st; code := Some c; message := msg |} in
        status r ∈ ["OK"; "WARNING"; "BROKEN"; "ERROR"]
        ∧ (status r = "OK" ↔ ∃ f0, Response c f = Response 200 f0)
        ∧ (∀ c', code r = Some c' ↔ ∃ f0, Response c f = Response c' f0)
        ∧ (code r = None
           ↔ ∃ cls m, Response c f = HeadRaises cls m)) as Hcase.
      { intros st msg Hst Hin r. cbn [status code r]. split_and!; [done| | |].
        - split; [done|]. intros (f0 & [= -> _]). done.
        - intros c'. split; [intros [= <-]; by exists f|].
          by intros (f' & [= <- _]).
        - split; [done|]. by intros (? & ? & ?). }
      repeat match goal with
             | |- context [if ?b then _ else _] => destruct b
             end; apply Hcase; try done;
        repeat (first [by left | right]).
  - assert (∀ st msg,
      st ≠ "OK" → st ∈ ["OK"; "WARNING"; "BROKEN"; "ERROR"] →
      let r := {| status := st; code := None; message := msg |} in
      status r ∈ ["OK"; "WARNING"; "BROKEN"; "ERROR"]
      ∧ (status r = "OK" ↔ ∃ f0, HeadRaises cls m = Response 200 f0)
      ∧ (∀ c', code r = Some c' ↔ ∃ f0, HeadRaises cls m = Response c' f0)
      ∧ (code r = None
         ↔ ∃ cls' m', HeadRaises cls m = HeadRaises cls' m')) as Hcase.
    { intros st msg Hst Hin r. cbn [status code r]. split_and!; [done| | |].
      - split; [done|]. by intros (f0 & ?).
      - intros c'. split; [done|]. by intros (f' & ?).
      - split; [|done]. intros _. by exists cls, m. }
    repeat match goal with
           | |- context [if ?b then _ else _] => destruct b
           end; apply Hcase; try done;
      repeat (first [by left | right]).
Qed.

End verify_url_range.

(** ** When [is_similar_page] raises *)

Module UrlFacts.
Import UrlParse.

Lemma has_char_lstrip_c0 (c : ascii) (s : string) :
  Py.has_char c (lstrip_c0 s) = true → Py.has_char c s = true.
Proof.
  induction s as [|a s IH]; [done|]. cbn [lstrip_c0].
  destruct (_ <=? _)%N; [|done]. intros Hc%IH. cbn [Py.has_char].
  rewrite Hc. apply orb_true_r.
Qed.

Lemma has_char_remove_unsafe (c : ascii) (s : string) :
  Py.has_char c (remove_unsafe s) = true → Py.has_char c s = true.
Proof.
  induction s as [|a s IH]; [done|]. cbn [remove_unsafe].
  destruct (_ || _ || _).
  - intros Hc%IH. cbn [Py.has_char]. rewrite Hc. apply orb_true_r.
  - cbn [Py.has_char]. intros [->|Hc%IH]%orb_true_iff; [done|].
    rewrite Hc. apply orb_true_r.
Qed.

Lemma has_char_after_first (c d : ascii) (s : string) :
  Py.has_char c (Py.after_first d s) = true → Py.has_char c s = true.
Proof.
  induction s as [|a s IH]; [done|]. cbn [Py.after_first Py.has_char].
  case_bool_decide.
  - intros ->. apply orb_true_r.
  - intros Hc%IH. rewrite Hc. apply orb_true_r.
Qed.

Lemma has_char_split_scheme (c : ascii) (s : string) :
  Py.has_char c (split_scheme s).2 = true → Py.has_char c s = true.
Proof.
  unfold split_scheme. destruct (Py.has_char ":" s); [|done].
  destruct (Py.before_first ":" s) as [|a b]; [done|].
  destruct (_ && _); [|done]. apply has_char_after_first.
Qed.

Lemma has_char_splitnetloc (c : ascii) (s : string) :
  Py.has_char c (splitnetloc s).1 = true → Py.has_char c s = true.
Proof.
  induction s as [|a s IH]; [done|]. cbn [splitnetloc].
  destruct (_ || _ || _); [done|].
  destruct (splitnetloc s) as [n r]. cbn [fst Py.has_char] in *.
  intros [->|Hc%IH]%orb_true_iff; [done|]. rewrite Hc. apply orb_true_r.
Qed.

(** A character of the network location is a character of the URL. *)
Lemma has_char_netloc (c : ascii) (u : string) :
  let rest := (split_scheme (remove_unsafe (lstrip_c0 u))).2 in
  let netloc :=
    (if Py.startswith rest "//"
     then splitnetloc (Py.after_first "/" (Py.after_first "/" rest))
     else ("", rest)).1 in
  Py.has_char c u = false → Py.has_char c netloc = false.
Proof.
  intros rest netloc Hu. destruct (Py.has_char c netloc) eqn:E; [|done].
  subst netloc. destruct (Py.startswith rest "//"); [|done].
  apply has_char_splitnetloc in E.
  do 2 apply has_char_after_first in E. subst rest.
  apply has_char_split_scheme, has_char_remove_unsafe, has_char_lstrip_c0 in E.
  congruence.
Qed.

End UrlFacts.

Section is_similar_page_total.
Context {env : Collaborators}.

(** In this model of [urlparse] (code points up to 255), [is_similar_page]
    raises only through the bracket tests: on a URL without [[] and []] it
    returns. *)
Lemma is_similar_page_no_brackets (u : string) :
  Py.has_char "[" u = false → Py.has_char "]" u = false →
  ∃ b, is_similar_page u = Ok b.
Proof.
  intros Hl Hr.
  pose proof (UrlFacts.has_char_netloc "[" u Hl) as Hnl.
  pose proof (UrlFacts.has_char_netloc "]" u Hr) as Hnr.
  cbn zeta in Hnl, Hnr.
  unfold is_similar_page, UrlParse.urlparse.
  destruct (UrlParse.split_scheme _) as [sch rest]. cbn [snd] in Hnl, Hnr.
  destruct (if Py.startswith rest "//" then _ else _) as [netloc rest'].
  cbn [fst] in Hnl, Hnr. rewrite Hnl, Hnr. cbn [andb orb negb].
  repeat match goal with
         | |- context [let '(_, _) := ?p in _] => destruct p
         end.
  cbn [UrlParse.netloc UrlParse.path]. destruct (_ && _); eauto.
Qed.

End is_similar_page_total.

Lemma is_similar_page_no_brackets_witness :
  ∃ b, is_similar_page (env := Demo.collaborators) Demo.ok_url = Ok b.
Proof.
  apply (is_similar_page_no_brackets (env := Demo.collaborators) Demo.ok_url);
    vm_compute; reflexivity.
Defined.

(** ** More on the traversal *)

Section traversal_more.
Context {env : Collaborators}.

Lemma scan_each_respects (R : relation Scanner) `{!PreOrder R}
    (rec : string → Scanner → option (Scanner * list Call)) (d' : Z) :
  (∀ c s s' calls, rec c s = Some (s', calls) → R s s') →
  ∀ courses s s' calls,
    scan_each rec d' courses s = Some (s', calls) → R s s'.
Proof.
  intros Hrec. induction courses as [|c courses IH]; intros s s' calls;
    cbn [scan_each].
  - by intros [= <- <-].
  - destruct (rec c s) as [[s1 calls1]|] eqn:E1; [|done].
    destruct (scan_each rec d' courses s1) as [[s2 calls2]|] eqn:E2; [|done].
    intros [= <- <-]. etrans; [by eapply Hrec|by eapply IH].
Qed.

(** A preorder on scanners that the marking of a course and the [try]
    block respect is respected by the whole scan. *)
Lemma scan_course_fuel_respects (R : relation Scanner) `{!PreOrder R} :
  (∀ b s, R s (mark_visited b s)) →
  (∀ c b d m, respects R (scan_lessons c b d m)) →
  ∀ fuel course_url depth max_depth s s' calls,
    scan_course_fuel fuel course_url depth max_depth s = Some (s', calls) →
    R s s'.
Proof.
  intros Hmark Hbody. induction fuel as [|fuel IHf];
    intros course_url depth max_depth s s' calls; cbn [scan_course_fuel];
    [done|].
  case_bool_decide; [by intros [= <- <-]|].
  pose proof (Hbody course_url (get_base_url course_url) depth max_depth
                (mark_visited (get_base_url course_url) s)) as Hg.
  destruct (scan_lessons _ _ _ _ _) as [s1 [ext|e]]; cbn [fst] in Hg.
  - assert (R s s1) by (etrans; [apply Hmark|exact Hg]).
    destruct (_ && _); [|by intros [= <- <-]].
    intros Hrec. etrans; [done|].
    eapply scan_each_respects; [done| |exact Hrec].
    intros c t t' cs. apply IHf.
  - intros [= <- <-]. etrans; [apply Hmark|exact Hg].
Qed.

(** *** The entries stay well formed *)

Global Instance keeps_well_formed_preorder : PreOrder keeps_well_formed.
Proof.
  split; [intros s Hs; exact Hs|].
  intros s1 s2 s3 H12 H23 Hs. apply H23, H12, Hs.
Qed.

Lemma extracted_well_formed (soup : Soup) (lesson_title : string) :
  Forall well_formed (extract_urls_from_page soup lesson_title).
Proof.
  apply Forall_forall. intros d. unfold extract_urls_from_page.
  intros (t & _ & Ht)%list_elem_of_omap.
  apply display_url_entry in Ht as (Hd & Hl & _ & _ & Hh).
  split; [done|]. by rewrite Hd, Hl.
Qed.

Lemma scan_urls_well_formed (depth max_depth : Z) (ext : gset string)
    (urls : list DiscoveredLink) :
  Forall well_formed urls →
  respects keeps_well_formed (for_each (scan_url depth max_depth) ext urls).
Proof.
  intros Hurls s Hs.
  destruct (for_each _ ext urls s) as [s' r] eqn:E. cbn [fst].
  apply scan_urls_results in E as (reached & Hpre & -> & _).
  destruct (accumulate_kept reached (all_results s))
    as (kept & -> & Hsub & _).
  apply Forall_app. split; [done|].
  apply Forall_forall. intros k Hk.
  eapply (proj1 (Forall_forall _ _) Hurls), elem_of_prefix; [|done].
  by eapply elem_of_sublist.
Qed.

Lemma scan_lessons_well_formed (course_url base_url : string)
    (depth max_depth : Z) :
  respects keeps_well_formed
           (scan_lessons course_url base_url depth max_depth).
Proof.
  assert (Hload : ∀ u, respects keeps_well_formed (load u)).
  { intros u s. unfold load.
    destruct (driver_get (driver s) u) as [w r]. intros Hs. exact Hs. }
  apply respects_bind; [apply _|apply Hload|]. intros soup.
  apply respects_for_each; [apply _|]. intros acc l.
  apply respects_bind; [apply _|apply Hload|]. intros lsoup.
  apply scan_urls_well_formed, extracted_well_formed.
Qed.

(** X5.  Every entry a scan adds to the result list is as the extractor
    builds entries: its target begins with http and its display string is
    made of its target and its lesson title.  So every URL the verifier
    submits after a scan from the empty scanner begins with http. *)
Theorem scan_course_entries_well_formed (course_url : string)
    (depth max_depth : Z) (s : Scanner) :
  Forall well_formed (all_results s) →
  ∃ s' calls,
    scan_course course_url depth max_depth s = Some (s', calls)
    ∧ Forall well_formed (all_results s')
    ∧ ∀ u, u ∈ submitted_urls (all_results s') →
           ∃ rest, u = "http" +:+ rest.
Proof.
  intros Hs.
  destruct (scan_course_total course_url depth max_depth s)
    as [[s' calls] Hrun].
  exists s', calls. split; [done|].
  assert (Forall well_formed (all_results s')) as Hs'.
  { eapply (scan_course_fuel_respects keeps_well_formed); [| |exact Hrun|done].
    - intros b t Ht. exact Ht.
    - apply scan_lessons_well_formed. }
  split; [done|]. intros u Hu. unfold submitted_urls, group_by_url in Hu.
  destruct (group_fold (all_results s') [] NoDup_nil_2) as (_ & Hk & _).
  apply Hk in Hu as [Hu|Hu]; [by apply elem_of_nil in Hu|].
  apply list_elem_of_fmap in Hu as (d & -> & Hd).
  apply PyFacts.startswith_spec.
  by apply (proj1 (Forall_forall _ _) Hs') in Hd as [? _].
Qed.

(** *** The visited set after a scan *)

Lemma bases_cons (c : string) (d : Z) (calls : list Call) :
  bases ((c, d) :: calls) = {[get_base_url c]} ∪ bases calls.
Proof. unfold bases. by rewrite fmap_cons, list_to_set_cons. Qed.

Lemma bases_app (calls1 calls2 : list Call) :
  bases (calls1 ++ calls2) = bases calls1 ∪ bases calls2.
Proof. unfold bases. by rewrite fmap_app, list_to_set_app_L. Qed.

Lemma scan_each_visited
    (rec : string → Scanner → option (Scanner * list Call)) (d' : Z) :
  (∀ c s s' calls, rec c s = Some (s', calls) →
     visited_pages s' = visited_pages s ∪ {[get_base_url c]} ∪ bases calls) →
  ∀ courses s s' calls,
    scan_each rec d' courses s = Some (s', calls) →
    visited_pages s' = visited_pages s ∪ bases calls.
Proof.
  intros Hrec. induction courses as [|c courses IH]; intros s s' calls;
    cbn [scan_each].
  - intros [= <- <-]. unfold bases. cbn. by rewrite (right_id_L ∅ (∪)).
  - destruct (rec c s) as [[s1 calls1]|] eqn:E1; [|done].
    destruct (scan_each rec d' courses s1) as [[s2 calls2]|] eqn:E2; [|done].
    intros [= <- <-]. rewrite (IH _ _ _ E2), (Hrec _ _ _ _ E1).
    rewrite bases_cons, bases_app.
    generalize (bases calls1), (bases calls2), (visited_pages s).
    intros X Y V. apply set_eq. intros x.
    rewrite !elem_of_union. tauto.
Qed.

Lemma scan_course_fuel_visited (fuel : nat) :
  ∀ course_url depth max_depth s s' calls,
    scan_course_fuel fuel course_url depth max_depth s = Some (s', calls) →
    visited_pages s'
    = visited_pages s ∪ {[get_base_url course_url]} ∪ bases calls.
Proof.
  induction fuel as [|fuel IHf]; intros course_url depth max_depth s s' calls;
    cbn [scan_course_fuel]; [done|].
  case_bool_decide as Hv.
  - intros [= <- <-]. unfold bases. cbn.
    apply set_eq. intros x. rewrite !elem_of_union, elem_of_singleton.
    split; [tauto|]. intros [[?| ->]|?%elem_of_empty]; done.
  - pose proof (scan_lessons_same_visited course_url
                  (get_base_url course_url) depth max_depth
                  (mark_visited (get_base_url course_url) s)) as Hsame.
    destruct (scan_lessons _ _ _ _ _) as [s1 [ext|e]];
      unfold same_visited in Hsame; cbn in Hsame.
    + assert (∀ calls0, visited_pages s1 ∪ bases calls0
                = visited_pages s ∪ {[get_base_url course_url]}
                  ∪ bases calls0) as Heq.
      { intros calls0. rewrite Hsame. apply set_eq. intros x.
        rewrite !elem_of_union. tauto. }
      destruct (_ && _).
      * intros Hrec. rewrite <- Heq.
        eapply scan_each_visited; [|exact Hrec]. intros c t t' cs. apply IHf.
      * intros [= <- <-]. rewrite <- Heq. unfold bases. cbn.
        by rewrite (right_id_L ∅ (∪)).
    + intros [= <- <-]. rewrite Hsame. unfold bases. cbn.
      rewrite (right_id_L ∅ (∪)).
      apply set_eq. intros x. rewrite !elem_of_union. tauto.
Qed.

(** X6.  After a scan the visited set is the one from before, the base URL
    of the course and the base URLs of the courses of the recursive
    invocations, and nothing else. *)
Theorem scan_course_visited_exact (course_url : string)
    (depth max_depth : Z) (s : Scanner) :
  ∃ s' calls,
    scan_course course_url depth max_depth s = Some (s', calls)
    ∧ visited_pages s'
      = visited_pages s ∪ {[get_base_url course_url]} ∪ bases calls.
Proof.
  destruct (scan_course_total course_url depth max_depth s)
    as [[s' calls] Hrun].
  exists s', calls. split; [done|]. by eapply scan_course_fuel_visited.
Qed.

End traversal_more.

Lemma scan_course_entries_well_formed_witness :
  ∃ s' calls,
    scan_course (env := Demo.collaborators) Demo.course_A 0 2
                (init (env := Demo.collaborators) []) = Some (s', calls)
    ∧ Forall well_formed (all_results s')
    ∧ ∀ u, u ∈ submitted_urls (all_results s') → ∃ rest, u = "http" +:+ rest.
Proof.
  apply (scan_course_entries_well_formed (env := Demo.collaborators)
           Demo.course_A 0 2 (init (env := Demo.collaborators) [])).
  simpl. constructor.
Defined.

Section recursion_candidates.
Context {env : Collaborators}.








(** X8.  A link on which [is_similar_page] raises ends the loop over the
    links of its page when the loop reaches it: the link itself is in the
    result list by then, the links behind it are not looked at, and the
    browser and the visited set are as before the loop. *)
Theorem malformed_link_ends_page (depth max_depth : Z) (ext : gset string)
    (before : list DiscoveredLink) (link : DiscoveredLink)
    (behind : list DiscoveredLink) (s : Scanner) (e : exn) :
  Forall (λ x, ∃ b, is_similar_page (url x) = Ok b) before →
  is_similar_page (url link) = Raise e →
  ∃ s',
    for_each (scan_url depth max_depth) ext (before ++ link :: behind) s
      = (s', Raise e)
    ∧ all_results s' = foldl add_result (all_results s) (before ++ [link])
    ∧ driver s' = driver s
    ∧ visited_pages s' = visited_pages s.
Proof.
  intros Hbefore Hlink. revert ext s.
  induction Hbefore as [|x before [b Hx] _ IH]; intros ext s;
    cbn [app for_each].
  - unfold bind at 1, scan_url at 1, bind at 1, append_result at 1.
    unfold collect_candidate, bind, lift. rewrite Hlink. by eexists.
  - unfold bind at 1, scan_url at 1, bind at 1, append_result at 1.
    unfold collect_candidate, bind at 1, lift, ret. rewrite Hx.
    match goal with
    | |- ∃ s', for_each _ ?ext' _ ?s1 = _ ∧ _ =>
        destruct (IH ext' s1) as (s' & Hrun & Hres & Hdrv & Hvis)
    end.
    exists s'. by rewrite Hrun.
Qed.

End recursion_candidates.

Lemma malformed_link_ends_page_witness :
  let link := {| url := "http://[elsewhere"; link_text := "broken";
                 lesson := "T"; display := "http://[elsewhere is in 'T'" |} in
  let next := {| url := Demo.ok_url; link_text := "ok"; lesson := "T";
                 display := "https://example.com/ok is in 'T'" |} in
  ∃ s', for_each (scan_url (env := Demo.collaborators) 0 2) ∅
                 [link; next] (init (env := Demo.collaborators) [])
        = (s', Raise (ValueError "Invalid IPv6 URL"))
        ∧ all_results s' = [link].
Proof.
  intros link next.
  destruct (malformed_link_ends_page (env := Demo.collaborators) 0 2 ∅
              [] link [next] (init (env := Demo.collaborators) [])
              (ValueError "Invalid IPv6 URL"))
    as (s' & Hrun & Hres & _).
  - constructor.
  - vm_compute. reflexivity.
  - exists s'. split; [exact Hrun|]. rewrite Hres. vm_compute. reflexivity.
Defined.

(** ** The groups of [verify_all_urls] *)

Module GroupFacts.
Import Dict.

Lemma get_None_keys {V} (d : t V) (k : string) :
  get d k = None ↔ k ∉ keys d.
Proof.
  rewrite <- DictFacts.get_is_Some, eq_None_not_Some. done.
Qed.

Lemma concat_set_absent {V} (d : t (list V)) (k : string) :
  get d k = None → concat ((set d k []).*2) = concat (d.*2).
Proof.
  induction d as [|[k0 v0] d IH]; cbn [get set]; [done|].
  case_bool_decide; [done|]. intros Hk.
  cbn [fmap list_fmap snd concat]. f_equal. by apply IH.
Qed.

Lemma concat_set_present {V} (d : t (list V)) (k : string)
    (old : list V) (x : V) :
  get d k = Some old →
  concat ((set d k (old ++ [x])).*2) ≡ₚ concat (d.*2) ++ [x].
Proof.
  induction d as [|[k0 v0] d IH]; cbn [get set]; [done|].
  case_bool_decide.
  - intros [= ->]. cbn [fmap list_fmap snd concat].
    rewrite <- !app_assoc. apply Permutation_app_head, Permutation_app_comm.
  - intros Hk. cbn [fmap list_fmap snd concat].
    rewrite (IH Hk). by rewrite app_assoc.
Qed.

Lemma length_set {V} (d : t V) (k : string) (v : V) :
  (length (set d k v) ≤ S (length d))%nat.
Proof.
  induction d as [|[k0 v0] d IH]; cbn [set]; [done|].
  case_bool_decide; cbn [length]; lia.
Qed.

Lemma length_set_present {V} (d : t V) (k : string) (v : V) :
  is_Some (get d k) → length (set d k v) = length d.
Proof.
  induction d as [|[k0 v0] d IH]; cbn [get set].
  - by intros [? ?].
  - case_bool_decide; [done|]. intros Hk. cbn [length]. by rewrite IH.
Qed.

End GroupFacts.

Section grouping.
Context {env : Collaborators}.

Lemma group_step_concat (d : Dict.t (list DiscoveredLink))
    (r : DiscoveredLink) :
  concat ((group_step d r).*2) ≡ₚ concat (d.*2) ++ [r].
Proof.
  unfold group_step. destruct (Dict.mem d (url r)) eqn:Em; cbn [negb].
  - apply DictFacts.mem_spec, DictFacts.get_is_Some in Em as [old Hold].
    rewrite Hold. cbn. by apply GroupFacts.concat_set_present.
  - assert (Dict.get d (url r) = None) as Hnone.
    { apply eq_None_not_Some. intros Hs%DictFacts.get_is_Some.
      apply DictFacts.mem_spec in Hs. congruence. }
    rewrite DictFacts.get_set, decide_True by done. cbn [from_option id].
    rewrite (GroupFacts.concat_set_present _ _ [] r).
    + by rewrite GroupFacts.concat_set_absent.
    + by rewrite DictFacts.get_set, decide_True.
Qed.

Lemma group_step_length (d : Dict.t (list DiscoveredLink))
    (r : DiscoveredLink) :
  (length (group_step d r) ≤ S (length d))%nat.
Proof.
  unfold group_step. destruct (Dict.mem d (url r)) eqn:Em; cbn [negb].
  - apply DictFacts.mem_spec, DictFacts.get_is_Some in Em.
    rewrite GroupFacts.length_set_present by done. lia.
  - rewrite GroupFacts.length_set_present.
    + apply GroupFacts.length_set.
    + rewrite DictFacts.get_set, decide_True by done. by eexists.
Qed.

Lemma group_fold_partition (rs : list DiscoveredLink) :
  ∀ d, concat ((foldl group_step d rs).*2) ≡ₚ concat (d.*2) ++ rs
       ∧ (length (foldl group_step d rs) ≤ length d + length rs)%nat.
Proof.
  induction rs as [|r rs IH]; intros d; cbn [foldl].
  - rewrite app_nil_r. split; [done|]. cbn [length]. lia.
  - destruct (IH (group_step d r)) as [Hp Hl]. split.
    + rewrite Hp, group_step_concat, <- app_assoc. done.
    + pose proof (group_step_length d r). cbn [length]. lia.
Qed.

Lemma in_dict_get {V} (d : Dict.t V) (k : string) (v : V) :
  NoDup (Dict.keys d) → (k, v) ∈ d → Dict.get d k = Some v.
Proof.
  unfold Dict.keys. induction d as [|[k0 v0] d IH]; cbn [Dict.get].
  - by intros _ ?%elem_of_nil.
  - rewrite fmap_cons. intros [Hk0 Hnd]%NoDup_cons [[= -> ->]|Hin]%elem_of_cons.
    + by rewrite bool_decide_eq_true_2.
    + rewrite bool_decide_eq_false_2; [by apply IH|].
      intros ->. apply Hk0. cbn [fst].
      by apply (list_elem_of_fmap_2 fst) in Hin.
Qed.

(** X9.  The grouping by URL neither loses nor repeats an entry: the groups
    put together are the accumulated entries in some order.  No group is
    empty, every entry of a group has the URL of the group, and there are
    no more groups than entries. *)
Theorem group_by_url_partition (results : list DiscoveredLink) :
  concat ((group_by_url results).*2) ≡ₚ results
  ∧ Forall (λ kv : string * list DiscoveredLink,
              kv.2 ≠ [] ∧ Forall (λ r, url r = kv.1) kv.2)
           (group_by_url results)
  ∧ (length (group_by_url results) ≤ length results)%nat.
Proof.
  unfold group_by_url.
  destruct (group_fold_partition results []) as [Hp Hl].
  split_and!; [done| |done].
  destruct (group_fold results [] NoDup_nil_2) as (Hnd & Hk & Hg).
  apply Forall_forall. intros [k v] Hkv. cbn [fst snd].
  assert (Dict.get (foldl group_step [] results) k = Some v) as Hget
    by (by apply in_dict_get).
  specialize (Hg k). rewrite Hget in Hg. cbn in Hg. subst v.
  split.
  - assert (k ∈ Dict.keys (foldl group_step [] results)) as Hin
      by (apply DictFacts.get_is_Some; by eexists).
    apply Hk in Hin as [Hin|Hin]; [by apply elem_of_nil in Hin|].
    apply list_elem_of_fmap in Hin as (r & -> & Hr).
    intros Hnil. assert (r ∈ filter (λ r0, url r0 = url r) results) as Hf
      by (by apply list_elem_of_filter).
    rewrite Hnil in Hf. by apply elem_of_nil in Hf.
  - apply Forall_forall. by intros r [? _]%list_elem_of_filter.
Qed.

End grouping.

(** ** The report *)

(** The status [print_results] reads for an entry. *)
Definition reported_status (verified_results : Dict.t VerificationResult)
    (r : DiscoveredLink) : string :=
  from_option status "UNKNOWN" (Dict.get verified_results (url r)).

Lemma count_status_cases (st : string) (t : Tally) :
  let t' := (count_status st t).2 in
  working_count t'
    = (working_count t + if bool_decide (st = "OK") then 1 else 0)%nat
  ∧ warning_count t'
    = (warning_count t + if bool_decide (st = "WARNING") then 1 else 0)%nat
  ∧ broken_count t'
    = (broken_count t + if bool_decide (st = "BROKEN") then 1 else 0)%nat
  ∧ (working_count t' + warning_count t' + broken_count t' + error_count t'
     = S (working_count t + warning_count t + broken_count t
          + error_count t))%nat.
Proof.
  unfold count_status. cbn zeta.
  repeat case_bool_decide; simplify_eq; cbn [snd working_count warning_count
    broken_count error_count]; lia.
Qed.

Lemma length_filter_cons {A} (P : A → Prop) `{!∀ x, Decision (P x)}
    (x : A) (l : list A) :
  length (filter P (x :: l))
  = ((if bool_decide (P x) then 1 else 0) + length (filter P l))%nat.
Proof.
  rewrite filter_cons. destruct (decide (P x)).
  - by rewrite bool_decide_eq_true_2.
  - by rewrite bool_decide_eq_false_2.
Qed.

Lemma filter_ext_in {A} (P1 P2 : A → Prop)
    `{!∀ x, Decision (P1 x), !∀ x, Decision (P2 x)} (l : list A) :
  (∀ x, x ∈ l → P1 x ↔ P2 x) → filter P1 l = filter P2 l.
Proof.
  induction l as [|x l IH]; intros Hext; [done|]. rewrite !filter_cons.
  rewrite IH by (intros y Hy; apply Hext; by right).
  destruct (decide (P1 x)) as [H1|H1], (decide (P2 x)) as [H2|H2];
    try done; exfalso; apply (Hext x (list_elem_of_here _ _)) in H1 || idtac;
    tauto || (apply H1, (Hext x (list_elem_of_here _ _)), H2).
Qed.

(** The loop either returns or raises the key error of the default dict. *)
Lemma print_entries_cases (verified_results : Dict.t VerificationResult)
    (results : list DiscoveredLink) :
  ∀ i t,
    (Forall (λ r, is_Some (Dict.get verified_results (url r))) results
     ∧ ∃ lines t',
         print_entries verified_results i results t = (lines, Returns t')
         ∧ working_count t'
           = (working_count t
              + length (filter (λ r, reported_status verified_results r
                                     = "OK") results))%nat
         ∧ warning_count t'
           = (warning_count t
              + length (filter (λ r, reported_status verified_results r
                                     = "WARNING") results))%nat
         ∧ broken_count t'
           = (broken_count t
              + length (filter (λ r, reported_status verified_results r
                                     = "BROKEN") results))%nat
         ∧ (working_count t' + warning_count t' + broken_count t'
            + error_count t'
            = working_count t + warning_count t + broken_count t
              + error_count t + length results)%nat)
    ∨ (Exists (λ r, Dict.get verified_results (url r) = None) results
       ∧ ∃ lines,
           print_entries verified_results i results t
           = (lines, Raises (KeyError "code"))).
Proof.
  induction results as [|r results IH]; intros i t; cbn [print_entries].
  - left. split; [constructor|]. exists [], t. cbn. split_and!; [done|lia..].
  - pose proof (count_status_cases
                  (from_option status "UNKNOWN"
                     (Dict.get verified_results (url r))) t) as Hc.
    destruct (count_status _ t) as [icon t1]. cbn [snd] in Hc.
    destruct (Dict.get verified_results (url r)) as [v|] eqn:Ev.
    + assert (Hrs : reported_status verified_results r = status v)
        by (unfold reported_status; by rewrite Ev).
      cbn [from_option] in Hc. destruct Hc as (Hc1 & Hc2 & Hc3 & Hc4).
      destruct (IH (S i) t1) as [(Hall & lines & t' & -> & H1 & H2 & H3 & H4)
                                |(Hex & lines & ->)].
      * left. split; [constructor; [by rewrite Ev|done]|].
        eexists _, t'. split; [done|].
        rewrite !length_filter_cons.
        rewrite (bool_decide_ext (reported_status verified_results r = "OK")
                   (status v = "OK")) by (by rewrite Hrs).
        rewrite (bool_decide_ext
                   (reported_status verified_results r = "WARNING")
                   (status v = "WARNING")) by (by rewrite Hrs).
        rewrite (bool_decide_ext
                   (reported_status verified_results r = "BROKEN")
                   (status v = "BROKEN")) by (by rewrite Hrs).
        cbn [length]. split_and!; lia.
      * right. split; [by apply Exists_cons_tl|]. by eexists.
    + right. split; [by apply Exists_cons_hd|]. by eexists.
Qed.

(** The icon printed for a status. *)
Lemma count_status_icon (st : string) (t : Tally) :
  (count_status st t).1
  = if bool_decide (st = "OK") then IconOK
    else if bool_decide (st = "WARNING") then IconWarning
    else if bool_decide (st = "BROKEN") then IconBroken
    else IconOther.
Proof. unfold count_status. by repeat case_bool_decide. Qed.

Lemma cons_app_assoc {A} (x : A) (l m n : list A) :
  x :: l ++ m ++ n = (x :: l ++ m) ++ n.
Proof. by rewrite <- app_comm_cons, app_assoc. Qed.

(** When the loop returns, every entry has its block of lines, numbered by
    its place. *)
Lemma print_entries_blocks (verified_results : Dict.t VerificationResult)
    (results : list DiscoveredLink) :
  ∀ i t lines t',
    print_entries verified_results i results t = (lines, Returns t') →
    ∀ k r, results !! k = Some r →
      ∃ v front back,
        Dict.get verified_results (url r) = Some v
        ∧ lines
          = front
            ++ [ResultLine (i + k)
                  (if bool_decide (status v = "OK") then IconOK
                   else if bool_decide (status v = "WARNING")
                        then IconWarning
                   else if bool_decide (status v = "BROKEN") then IconBroken
                   else IconOther)
                  (status v) (display r)]
            ++ (if bool_decide (link_text r ≠ "")
                then [LinkTextLine (link_text r)] else [])
            ++ [VerificationLine (message v)]
            ++ match code v with
               | Some c => if bool_decide (c ≠ 0) then [HttpStatusLine c]
                           else []
               | None => []
               end
            ++ [BlankLine] ++ back.
Proof.
  induction results as [|r0 results IH]; intros i t lines t' Hp k r Hk;
    [done|].
  cbn [print_entries] in Hp.
  pose proof (count_status_icon
                (from_option status "UNKNOWN"
                   (Dict.get verified_results (url r0))) t) as Hicon.
  destruct (count_status _ t) as [icon t1]. cbn [fst] in Hicon.
  destruct (Dict.get verified_results (url r0)) as [v0|] eqn:Ev; [|done].
  cbn [from_option] in Hp, Hicon.
  destruct (print_entries verified_results (S i) results t1)
    as [more o] eqn:Emore.
  injection Hp as <- ->.
  destruct k as [|k]; cbn in Hk.
  - injection Hk as <-. exists v0, [], more. split; [done|].
    rewrite Nat.add_0_r, Hicon. cbn [app]. by rewrite <- !app_assoc.
  - destruct (IH _ _ _ _ Emore k r Hk) as (v & front & back & Hv & ->).
    replace (i + S k)%nat with (S i + k)%nat by lia.
    exists v. eexists (_ :: _ ++ front), back. split; [done|].
    apply cons_app_assoc.
Qed.

(** The loop at the first entry whose URL is no key of the dict. *)
Lemma print_entries_unknown (verified_results : Dict.t VerificationResult)
    (before : list DiscoveredLink) (r : DiscoveredLink)
    (behind : list DiscoveredLink) :
  Forall (λ r, is_Some (Dict.get verified_results (url r))) before →
  Dict.get verified_results (url r) = None →
  ∀ i t, ∃ lines t',
    print_entries verified_results i before t = (lines, Returns t')
    ∧ print_entries verified_results i (before ++ r :: behind) t
      = (lines
         ++ [ResultLine (i + length before) IconOther "UNKNOWN" (display r)]
         ++ (if bool_decide (link_text r ≠ "")
             then [LinkTextLine (link_text r)] else [])
         ++ [VerificationLine "Not verified"],
         Raises (KeyError "code")).
Proof.
  intros Hall Hnone. induction Hall as [|r0 before [v0 Hv0] Hall IH];
    intros i t.
  - exists [], t. split; [done|]. cbn [app print_entries length].
    rewrite Hnone. cbn [from_option].
    pose proof (count_status_icon "UNKNOWN" t) as Hicon.
    destruct (count_status "UNKNOWN" t) as [icon t1]. cbn [fst] in Hicon.
    rewrite Nat.add_0_r. subst icon. done.
  - cbn [app print_entries length]. rewrite Hv0. cbn [from_option].
    destruct (count_status (status v0) t) as [icon t1].
    destruct (IH (S i) t1) as (lines & t' & -> & ->).
    eexists _, t'. split; [reflexivity|].
    replace (i + S (length before))%nat with (S i + length before)%nat
      by lia.
    f_equal. simpl. by rewrite <- !app_assoc.
Qed.

(** X10.  [print_results] returns exactly when every accumulated entry has
    its URL among the keys of the verification dict.  The first entry
    without one is reported with status UNKNOWN: behind the lines of the
    entries before it, its numbered line with the icon of no known status
    and the status UNKNOWN, its link text if it has one, and the message
    Not verified; then the lookup of its code raises the key error and
    nothing more is printed.  When [print_results] returns, every entry has
    its block of lines, numbered by its place and carrying the status, the
    message and the code of its URL; the summary follows; the three named
    counters count the entries reported OK, WARNING and BROKEN, and the
    four counters add up to the number of entries. *)
Theorem print_results_tally (results : list DiscoveredLink)
    (verified_results : Dict.t VerificationResult)
    (unique_urls : Dict.t (list DiscoveredLink)) :
  ((∃ lines t,
      print_results results verified_results unique_urls
      = (lines, Returns t))
   ↔ Forall (λ r, is_Some (Dict.get verified_results (url r))) results)
  ∧ ((∃ lines,
        print_results results verified_results unique_urls
        = (lines, Raises (KeyError "code")))
     ↔ Exists (λ r, Dict.get verified_results (url r) = None) results)
  ∧ (∀ before r behind,
       results = before ++ r :: behind →
       Forall (λ r, is_Some (Dict.get verified_results (url r))) before →
       Dict.get verified_results (url r) = None →
       ∃ lines t,
         print_results before verified_results unique_urls
         = (lines ++ [TotalLine (length before);
                      UniqueLine (length unique_urls);
                      WorkingLine (working_count t);
                      WarningsLine (warning_count t);
                      BrokenLine (broken_count t);
                      ErrorsLine (error_count t)], Returns t)
         ∧ print_results results verified_results unique_urls
           = (lines
              ++ [ResultLine (S (length before)) IconOther "UNKNOWN"
                    (display r)]
              ++ (if bool_decide (link_text r ≠ "")
                  then [LinkTextLine (link_text r)] else [])
              ++ [VerificationLine "Not verified"],
              Raises (KeyError "code")))
  ∧ ∀ lines t,
      print_results results verified_results unique_urls
      = (lines, Returns t) →
      working_count t
      = length (filter (λ r, reported_status verified_results r = "OK")
                       results)
      ∧ warning_count t
        = length (filter (λ r, reported_status verified_results r
                               = "WARNING") results)
      ∧ broken_count t
        = length (filter (λ r, reported_status verified_results r
                               = "BROKEN") results)
      ∧ (working_count t + warning_count t + broken_count t
         + error_count t = length results)%nat
      ∧ (∃ body,
           lines = body ++ [TotalLine (length results);
                            UniqueLine (length unique_urls);
                            WorkingLine (working_count t);
                            WarningsLine (warning_count t);
                            BrokenLine (broken_count t);
                            ErrorsLine (error_count t)])
      ∧ ∀ k r, results !! k = Some r →
          ∃ v front back,
            Dict.get verified_results (url r) = Some v
            ∧ lines
              = front
                ++ [ResultLine (S k)
                      (if bool_decide (status v = "OK") then IconOK
                       else if bool_decide (status v = "WARNING")
                            then IconWarning
                       else if bool_decide (status v = "BROKEN")
                            then IconBroken
                       else IconOther)
                      (status v) (display r)]
                ++ (if bool_decide (link_text r ≠ "")
                    then [LinkTextLine (link_text r)] else [])
                ++ [VerificationLine (message v)]
                ++ match code v with
                   | Some c => if bool_decide (c ≠ 0) then [HttpStatusLine c]
                               else []
                   | None => []
                   end
                ++ [BlankLine] ++ back.
Proof.
  split_and!.
  - unfold print_results.
    destruct (print_entries_cases verified_results results 1
                {| working_count := 0; warning_count := 0;
                   broken_count := 0; error_count := 0 |})
      as [(Hall & lines & t' & -> & _)|(Hex & lines & ->)].
    + split; [done|]. intros _. by eexists _, _.
    + split; [by intros (? & ? & ?)|]. intros Hall.
      apply Exists_exists in Hex as (r & Hr & Hnone).
      apply (proj1 (Forall_forall _ _) Hall) in Hr as [v Hv]. congruence.
  - unfold print_results.
    destruct (print_entries_cases verified_results results 1
                {| working_count := 0; warning_count := 0;
                   broken_count := 0; error_count := 0 |})
      as [(Hall & lines & t' & -> & _)|(Hex & lines & ->)].
    + split; [by intros (? & ?)|]. intros Hex.
      apply Exists_exists in Hex as (r & Hr & Hnone).
      apply (proj1 (Forall_forall _ _) Hall) in Hr as [v Hv]. congruence.
    + split; [done|]. intros _. by eexists.
  - intros before r behind -> Hall Hnone. unfold print_results.
    destruct (print_entries_unknown verified_results before r behind
                Hall Hnone 1
                {| working_count := 0; warning_count := 0;
                   broken_count := 0; error_count := 0 |})
      as (lines & t & -> & ->).
    by exists lines, t.
  - unfold print_results. intros lines t Hp.
    destruct (print_entries verified_results 1 results _)
      as [body o] eqn:Ebody.
    destruct o as [t0|e]; [|done]. injection Hp as <- <-.
    rename t0 into t.
    destruct (print_entries_cases verified_results results 1
                {| working_count := 0; warning_count := 0;
                   broken_count := 0; error_count := 0 |})
      as [(Hall & lines & t' & Heq & H1 & H2 & H3 & H4)|(Hex & lines & Heq)];
      rewrite Ebody in Heq; [|done].
    injection Heq as <- <-. cbn in H1, H2, H3, H4.
    split_and!; [done..|by eexists|].
    intros k r Hk.
    destruct (print_entries_blocks _ _ _ _ _ _ Ebody k r Hk)
      as (v & front & back & Hv & ->).
    exists v, front,
      (back ++ [TotalLine (length results); UniqueLine (length unique_urls);
                WorkingLine (working_count t); WarningsLine (warning_count t);
                BrokenLine (broken_count t); ErrorsLine (error_count t)]).
    split; [done|]. cbn [Nat.add]. by rewrite <- !app_assoc.
Qed.

Section report_after_verify.
Context {env : Collaborators}.

Lemma verified_get (results : list DiscoveredLink) (u : string) :
  u ∈ url <$> results →
  Dict.get (collect_all results) u = Some (verify_url u).
Proof.
  intros Hu. unfold collect_all, submitted_urls, group_by_url.
  destruct (group_fold results [] NoDup_nil_2) as (Hnd & Hk & _).
  destruct (collect_fold
              (as_completed (Dict.keys (foldl group_step [] results))) [])
    as [_ Hget].
  { cbn [Dict.keys fmap list_fmap app]. by rewrite as_completed_perm. }
  rewrite Hget, decide_True; [done|].
  rewrite as_completed_perm. apply Hk. by right.
Qed.

(** With a worker in the pool [verify_all_urls] returns its two dicts. *)
Lemma verify_all_urls_returns (max_workers : Z)
    (results : list DiscoveredLink) :
  0 < max_workers →
  verify_all_urls max_workers results
  = Ok (collect_all results, group_by_url results).
Proof.
  intros Hw. unfold verify_all_urls.
  by destruct (Z.leb_spec max_workers 0); [lia|].
Qed.

Lemma classify_status_in (o : HeadOutcome) :
  status (classify o) ∈ ["OK"; "WARNING"; "BROKEN"; "ERROR"].
Proof.
  unfold classify. destruct o as [c f|cls m];
    repeat match goal with
           | |- context [if ?b then _ else _] => destruct b
           end; cbn [status]; repeat (first [by left | right]).
Qed.

(** X11.  After [verify_all_urls], which returns when its pool has a
    worker, the report is printed in full: no lookup fails.  The counters
    count the entries (not the distinct URLs) by the status of their URL,
    the fourth counting the status ERROR, and the summary gives the number
    of entries and of distinct URLs. *)
Theorem print_results_after_verify (max_workers : Z)
    (results : list DiscoveredLink) :
  0 < max_workers →
  ∃ verified_results unique_urls lines t,
    verify_all_urls max_workers results = Ok (verified_results, unique_urls)
    ∧ print_results results verified_results unique_urls
      = (lines ++ [TotalLine (length results);
                   UniqueLine (length (submitted_urls results));
                   WorkingLine (working_count t);
                   WarningsLine (warning_count t);
                   BrokenLine (broken_count t);
                   ErrorsLine (error_count t)], Returns t)
    ∧ working_count t
      = length (filter (λ r, status (verify_url (url r)) = "OK") results)
    ∧ warning_count t
      = length (filter (λ r, status (verify_url (url r)) = "WARNING") results)
    ∧ broken_count t
      = length (filter (λ r, status (verify_url (url r)) = "BROKEN") results)
    ∧ error_count t
      = length (filter (λ r, status (verify_url (url r)) = "ERROR") results).
Proof.
  intros Hw. exists (collect_all results), (group_by_url results).
  rewrite (verify_all_urls_returns _ _ Hw).
  assert (Hst : ∀ r, r ∈ results →
            reported_status (collect_all results) r
            = status (verify_url (url r))).
  { intros r Hr. unfold reported_status.
    by rewrite verified_get by (by apply list_elem_of_fmap_2). }
  assert (Hfilter : ∀ st,
            length (filter (λ r, reported_status (collect_all results) r
                                 = st) results)
            = length (filter (λ r, status (verify_url (url r)) = st)
                             results)).
  { intros st. f_equal. apply filter_ext_in.
    intros r Hr. by rewrite Hst. }
  unfold print_results.
  destruct (print_entries_cases (collect_all results) results 1
              {| working_count := 0; warning_count := 0;
                 broken_count := 0; error_count := 0 |})
    as [(_ & lines & t & -> & H1 & H2 & H3 & H4)|(Hex & _)].
  - exists lines, t. cbn in H1, H2, H3, H4.
    rewrite Hfilter in H1, H2, H3.
    split; [done|]. split.
    { unfold submitted_urls, Dict.keys. by rewrite length_fmap. }
    split_and!; [done..|].
    assert (Hsum : (length results
              = length (filter (λ r, status (verify_url (url r)) = "OK")
                               results)
                + length (filter (λ r, status (verify_url (url r))
                                       = "WARNING") results)
                + length (filter (λ r, status (verify_url (url r))
                                       = "BROKEN") results)
                + length (filter (λ r, status (verify_url (url r))
                                       = "ERROR") results))%nat).
    { clear. induction results as [|r results IH]; [done|].
      rewrite !length_filter_cons. cbn [length].
      pose proof (classify_status_in (requests_head (url r))) as Hin.
      fold (verify_url (url r)) in Hin.
      repeat (apply elem_of_cons in Hin as [Hin|Hin]);
        [rewrite Hin; repeat case_bool_decide; simplify_eq; lia..
        |by apply elem_of_nil in Hin]. }
    lia.
  - apply Exists_exists in Hex as (r & Hr & Hnone).
    rewrite verified_get in Hnone by (by apply list_elem_of_fmap_2). done.
Qed.

End report_after_verify.

(** Two entries with one working URL, verified by ten workers. *)
Lemma print_results_after_verify_witness :
  let d1 := {| url := Demo.ok_url; link_text := "ok"; lesson := "Lesson A";
               display := "https://example.com/ok is in 'Lesson A'" |} in
  let d2 := {| url := Demo.ok_url; link_text := "ok again";
               lesson := "Lesson B";
               display := "https://example.com/ok is in 'Lesson B'" |} in
  ∃ verified_results unique_urls lines t,
    verify_all_urls (env := Demo.collaborators) 10 [d1; d2]
    = Ok (verified_results, unique_urls)
    ∧ (print_results [d1; d2] verified_results unique_urls).2 = Returns t
    ∧ (print_results [d1; d2] verified_results unique_urls).1
      = lines ++ [TotalLine 2; UniqueLine 1; WorkingLine (working_count t);
                  WarningsLine (warning_count t);
                  BrokenLine (broken_count t); ErrorsLine (error_count t)].
Proof.
  intros d1 d2.
  destruct (print_results_after_verify (env := Demo.collaborators)
              10 [d1; d2]) as (v & u & lines & t & Hrun & Hp & _); [lia|].
  exists v, u, lines, t. split; [exact Hrun|]. rewrite Hp.
  split; reflexivity.
Defined.

(** A verified entry and one whose URL was not verified: the report stops
    behind the verification line of the second. *)
Lemma print_results_tally_witness :
  let d1 := {| url := Demo.ok_url; link_text := "ok"; lesson := "T";
               display := "https://example.com/ok is in 'T'" |} in
  let d2 := {| url := "https://example.com/other"; link_text := "";
               lesson := "T";
               display := "https://example.com/other is in 'T'" |} in
  let v := {| status := "OK"; code := Some 200; message := "OK" |} in
  print_results [d1; d2] [(Demo.ok_url, v)] []
  = ([ResultLine 1 IconOK "OK" (display d1); LinkTextLine "ok";
      VerificationLine "OK"; HttpStatusLine 200; BlankLine;
      ResultLine 2 IconOther "UNKNOWN" (display d2);
      VerificationLine "Not verified"],
     Raises (KeyError "code")).
Proof.
  intros d1 d2 v.
  destruct (proj1 (proj2 (proj2 (print_results_tally [d1; d2]
                                   [(Demo.ok_url, v)] [])))
              [d1] d2 [] eq_refl) as (lines & t & Hbefore & Hall).
  - repeat constructor. by exists v.
  - reflexivity.
  - assert (Hl : print_results [d1] [(Demo.ok_url, v)] []
                 = ([ResultLine 1 IconOK "OK" (display d1); LinkTextLine "ok";
                     VerificationLine "OK"; HttpStatusLine 200; BlankLine]
                    ++ [TotalLine 1; UniqueLine 0; WorkingLine 1;
                        WarningsLine 0; BrokenLine 0; ErrorsLine 0],
                    Returns {| working_count := 1; warning_count := 0;
                               broken_count := 0; error_count := 0 |}))
      by reflexivity.
    rewrite Hl in Hbefore. injection Hbefore as Hlines <-.
    apply (app_inv_tail [TotalLine 1; UniqueLine 0; WorkingLine 1;
                         WarningsLine 0; BrokenLine 0; ErrorsLine 0]
             [ResultLine 1 IconOK "OK" (display d1); LinkTextLine "ok";
              VerificationLine "OK"; HttpStatusLine 200; BlankLine] lines)
      in Hlines as <-.
    rewrite Hall. reflexivity.
Defined.

(** ** The command line *)

Section main_facts.
Context {env : Collaborators} {session : Session}.

Lemma print_results_verified_returns (results : list DiscoveredLink) :
  ∃ lines t,
    print_results results (collect_all results) (group_by_url results)
    = (lines, Returns t).
Proof.
  unfold print_results.
  destruct (print_entries_cases (collect_all results) results 1
              {| working_count := 0; warning_count := 0;
                 broken_count := 0; error_count := 0 |})
    as [(_ & lines & t & -> & _)|(Hex & _)]; [by eexists _, _|].
  apply Exists_exists in Hex as (r & Hr & Hnone).
  rewrite verified_get in Hnone by (by apply list_elem_of_fmap_2). done.
Qed.

(** The report returns unless verification is asked for with a pool of no
    workers; then nothing is printed. *)
Lemma report_cases (args : Args) (s : Scanner) :
  (arg_no_verify args = true ∨ 0 < arg_max_workers args)
  ∧ (∃ lines, report args s = (lines, Returns tt))
  ∨ (arg_no_verify args = false ∧ arg_max_workers args ≤ 0)
    ∧ ∃ e, report args s = ([], Raises e).
Proof.
  unfold report, verify_all_urls.
  destruct (arg_no_verify args); cbn [negb].
  - left. split; [by left|by eexists].
  - destruct (Z.leb_spec (arg_max_workers args) 0).
    + right. split; [done|by eexists].
    + left. split; [by right|].
      destruct (print_results_verified_returns (all_results s))
        as (lines & t & Hp).
      rewrite Hp. by eexists.
Qed.

(** [main] behind the parser ends with exit status 0 or 1. *)
Lemma run_exit_status (args : Args) :
  ∃ o, run args = Some o
    ∧ (exit_status o = 0 ∨ exit_status o = 1)
    ∧ (exit_status o = 0 ↔
         Py.startswith (arg_url args) "http" = true
         ∧ (arg_no_verify args = true ∨ 0 < arg_max_workers args)
         ∧ ∃ w s calls,
             webdriver_Chrome (negb (arg_no_headless args)) = Ok w
             ∧ scan_course (arg_url args) 0 (arg_max_depth args) (init w)
               = Some (s, calls)
             ∧ (driver_quit (driver s)).2 = Ok tt)
    ∧ (browser o = None ↔
         Py.startswith (arg_url args) "http" = false
         ∨ ∃ e, webdriver_Chrome (negb (arg_no_headless args)) = Raise e)
    ∧ (arg_no_verify args = false → arg_max_workers args ≤ 0 →
       printed o = []
       ∧ (exit_status o = 1)
       ∧ ∀ w, Py.startswith (arg_url args) "http" = true →
              webdriver_Chrome (negb (arg_no_headless args)) = Ok w →
              ∃ s calls,
                scan_course (arg_url args) 0 (arg_max_depth args) (init w)
                = Some (s, calls)
                ∧ browser o = Some (driver_quit (driver s)).1).
Proof.
  unfold run.
  destruct (Py.startswith (arg_url args) "http") eqn:Eurl; cbn [negb].
  2:{ eexists. split; [done|]. cbn. split_and!.
      - by right.
      - split; [done|]. by intros [? _].
      - split; [by left|done].
      - intros _ _. split_and!; [done..|]. by intros w. }
  destruct (webdriver_Chrome (negb (arg_no_headless args))) as [w|e] eqn:Ew.
  2:{ eexists. split; [done|]. cbn. split_and!.
      - by right.
      - split; [done|]. by intros (_ & _ & ? & ? & ? & ? & _).
      - split; [right; by eexists|done].
      - intros _ _. split_and!; [done..|]. by intros w. }
  destruct (scan_course_total (arg_url args) 0 (arg_max_depth args) (init w))
    as [[s calls] Hscan].
  rewrite Hscan.
  destruct (driver_quit (driver s)) as [w' q] eqn:Eq.
  destruct (report_cases args s) as [[Hok [lines Hrep]]|[[Hv Hw] [e Hrep]]];
    rewrite Hrep; eexists; (split; [done|]);
    cbn [exit_status browser printed].
  - split_and!.
    + destruct q; [by left|by right].
    + split.
      * intros Hq. split; [done|]. split; [done|].
        exists w, s, calls. split_and!; [done..|].
        rewrite Eq. cbn. destruct q as [[]|]; done.
      * intros (_ & _ & w0 & s0 & calls0 & Hw0 & Hs0 & Hq).
        simplify_eq. rewrite Eq in Hq. cbn in Hq. by subst q.
    + split; [done|]. intros [?|[? ?]]; done.
    + intros Hv Hw. destruct Hok as [Hok|Hok]; [congruence|lia].
  - split_and!.
    + by right.
    + split; [done|]. intros (_ & [?|?] & _); [congruence|lia].
    + split; [done|]. intros [?|[? ?]]; done.
    + intros _ _. split_and!; [done..|]. intros w0 _ [= <-].
      exists s, calls. by rewrite Eq.
Qed.

(** X12.  [main] ends with exit status 0, 1 or 2.  It is 2 exactly when the
    parser rejects the command line, and 0 with no browser started and no
    result printed when the parser prints the help or the version.  On
    parsed arguments it is 0 or 1, and 0 exactly when the URL begins with
    http, the browser starts, the pool has a worker or verification is
    switched off, and the browser quits without raising.  Behind the parser
    no browser is started exactly when the URL does not begin with http or
    the start raises.  A pool of no workers with verification on lets the
    scan run and the browser quit, prints no result and gives status 1. *)
Theorem main_exit_status (argv : list string) :
  ∃ o, main argv = Some o
    ∧ (exit_status o = 0 ∨ exit_status o = 1 ∨ exit_status o = 2)
    ∧ (exit_status o = 2 ↔ parse_args argv = Rejected)
    ∧ (parse_args argv = Rejected → browser o = None ∧ printed o = [])
    ∧ (parse_args argv = HelpOrVersion →
       exit_status o = 0 ∧ browser o = None ∧ printed o = [])
    ∧ ∀ args, parse_args argv = Parsed args →
        (exit_status o = 0 ∨ exit_status o = 1)
        ∧ (exit_status o = 0 ↔
             Py.startswith (arg_url args) "http" = true
             ∧ (arg_no_verify args = true ∨ 0 < arg_max_workers args)
             ∧ ∃ w s calls,
                 webdriver_Chrome (negb (arg_no_headless args)) = Ok w
                 ∧ scan_course (arg_url args) 0 (arg_max_depth args) (init w)
                   = Some (s, calls)
                 ∧ (driver_quit (driver s)).2 = Ok tt)
        ∧ (browser o = None ↔
             Py.startswith (arg_url args) "http" = false
             ∨ ∃ e, webdriver_Chrome (negb (arg_no_headless args)) = Raise e)
        ∧ (arg_no_verify args = false → arg_max_workers args ≤ 0 →
           printed o = []
           ∧ (exit_status o = 1)
           ∧ ∀ w, Py.startswith (arg_url args) "http" = true →
                  webdriver_Chrome (negb (arg_no_headless args)) = Ok w →
                  ∃ s calls,
                    scan_course (arg_url args) 0 (arg_max_depth args) (init w)
                    = Some (s, calls)
                    ∧ browser o = Some (driver_quit (driver s)).1).
Proof.
  unfold main. destruct (parse_args argv) as [args| |] eqn:Eparse.
  - destruct (run_exit_status args) as (o & Hrun & Hst & Hrest).
    exists o. split; [done|]. split_and!; [|split|done|done|].
    + destruct Hst; [by left|right; by left].
    + intros H2. destruct Hst as [H0|H1]; rewrite H2 in *; done.
    + done.
    + intros ? [= <-]. by split.
  - eexists. split; [done|]. cbn [exit_status browser printed].
    split_and!; [by left|done|done|done|done].
  - eexists. split; [done|]. cbn [exit_status browser printed].
    split_and!; [right; by right|done|done|done|done].
Qed.

End main_facts.

(** On the demo site: the course URL alone, the URL behind a pool of no
    workers, the version flag, and an empty command line. *)
Lemma main_exit_status_witness :
  (∃ o, main (env := Demo.collaborators) (session := DemoCli.session)
             [Demo.course_A] = Some o
        ∧ exit_status o = 0)
  ∧ (∃ o, main (env := Demo.collaborators) (session := DemoCli.session)
               ["--max-workers"; "0"; Demo.course_A] = Some o
          ∧ exit_status o = 1 ∧ printed o = [])
  ∧ (∃ o, main (env := Demo.collaborators) (session := DemoCli.session)
               ["--version"] = Some o
          ∧ exit_status o = 0 ∧ browser o = None)
  ∧ (∃ o, main (env := Demo.collaborators) (session := DemoCli.session)
               [] = Some o
          ∧ exit_status o = 2).
Proof.
  split_and!.
  - destruct (main_exit_status (env := Demo.collaborators)
                (session := DemoCli.session) [Demo.course_A])
      as (o & Hmain & _ & _ & _ & _ & Hparsed).
    exists o. split; [exact Hmain|].
    destruct (Hparsed (DemoCli.args Demo.course_A false 10))
      as (_ & Hzero & _); [vm_compute; reflexivity|].
    apply Hzero.
    split; [vm_compute; reflexivity|]. split; [right; vm_compute; reflexivity|].
    destruct (scan_course_total (env := Demo.collaborators)
                Demo.course_A 0 2 (init (env := Demo.collaborators) []))
      as [[s calls] Hs].
    exists [], s, calls. split; [reflexivity|]. split; [exact Hs|reflexivity].
  - destruct (main_exit_status (env := Demo.collaborators)
                (session := DemoCli.session)
                ["--max-workers"; "0"; Demo.course_A])
      as (o & Hmain & _ & _ & _ & _ & Hparsed).
    exists o. split; [exact Hmain|].
    destruct (Hparsed (DemoCli.args Demo.course_A false 0))
      as (_ & _ & _ & Hpool); [vm_compute; reflexivity|].
    destruct Hpool as (Hp & He & _); [reflexivity|vm_compute; discriminate|].
    split; [exact He|exact Hp].
  - destruct (main_exit_status (env := Demo.collaborators)
                (session := DemoCli.session) ["--version"])
      as (o & Hmain & _ & _ & _ & Hhelp & _).
    exists o. split; [exact Hmain|].
    destruct Hhelp as (H0 & Hb & _); [vm_compute; reflexivity|].
    split; [exact H0|exact Hb].
  - destruct (main_exit_status (env := Demo.collaborators)
                (session := DemoCli.session) [])
      as (o & Hmain & _ & Hrej & _).
    exists o. split; [exact Hmain|]. apply Hrej. reflexivity.
Defined.
